(** * Country-GDP ETL script: a shallow embedding and its properties

    The script [etl_project_gdp_chatedit.py] fetches an archived HTML page,
    extracts (country, GDP text) pairs from the third table body, converts
    the GDP text to billions, stores the result in a CSV file and a SQLite
    table, runs one query and logs each stage.

    Modelling decisions, all local to this file:
    - Python text is [string]; each [ascii] stands for the code point of the
      same number, so the model covers text over code points below 256.
    - A float64 cell is [NaN], positive infinity [Inf] or an exact
      rational [Num q]. The decimal arithmetic of the script and the
      overflow of a number beyond the float64 range to infinity are
      modelled; the binary rounding of the 64-bit representation is not:
      where a value sits exactly between two hundredths the script may
      round to the other one, and a figure of more than 15 digits is kept
      exactly here where the script keeps its nearest float64. The text
      read by the script holds no sign, so no negative number and no
      negative infinity arises.
    - The document tree built by the HTML parser is the input of the
      extractor; the network, the parser, the clock and the file system are
      parameters of a run ([env]). The parser is taken to build a tree for
      every page: markup that it refuses is not modelled.
    - Exceptions are values of [result]; the orchestration runs in a state
      and exception monad over the files, the output streams and the global
      name [conn]. *)

From Stdlib Require Import ZArith QArith Qround String Ascii List Lia Lqa.
From stdpp Require Import base list strings gmap sorting.

Open Scope string_scope.
Open Scope list_scope.

(** ** Text *)

Module Text.

Definition code (c : ascii) : N := N_of_ascii c.

(** [\d] of the [re] module on text: the decimal digits. Below code point
    256 these are [0] to [9]. *)
Definition re_digit (c : ascii) : bool :=
  ((48 <=? code c) && (code c <=? 57))%N.

(** [str.isdigit] on one character: the decimal digits and the characters
    of numeric type Digit; below code point 256 the latter are the
    superscripts two, three and one (178, 179, 185). *)
Definition isdigit (c : ascii) : bool :=
  re_digit c || (code c =? 178)%N || (code c =? 179)%N || (code c =? 185)%N.

(** [str.isspace] on one character, below code point 256. *)
Definition isspace (c : ascii) : bool :=
  ((9 <=? code c) && (code c <=? 13) || (28 <=? code c) && (code c <=? 32)
   || (code c =? 133) || (code c =? 160))%N.

Definition digit_val (c : ascii) : Z := Z.of_N (code c) - 48.

Fixpoint str_filter (p : ascii -> bool) (s : string) : string :=
  match s with
  | EmptyString => EmptyString
  | String c r => if p c then String c (str_filter p r) else str_filter p r
  end.

(** [any(p(ch) for ch in s)] *)
Fixpoint str_any (p : ascii -> bool) (s : string) : bool :=
  match s with
  | EmptyString => false
  | String c r => p c || str_any p r
  end.

Fixpoint str_all (p : ascii -> bool) (s : string) : bool :=
  match s with
  | EmptyString => true
  | String c r => p c && str_all p r
  end.

Fixpoint lstrip (s : string) : string :=
  match s with
  | EmptyString => EmptyString
  | String c r => if isspace c then lstrip r else s
  end.

Fixpoint rstrip (s : string) : string :=
  match s with
  | EmptyString => EmptyString
  | String c r =>
      match rstrip r with
      | EmptyString => if isspace c then EmptyString else String c EmptyString
      | r' => String c r'
      end
  end.

(** [s.strip()] *)
Definition strip (s : string) : string := rstrip (lstrip s).

Definition is_empty (s : string) : bool :=
  match s with EmptyString => true | _ => false end.

Definition newline : string := String "010"%char EmptyString.

End Text.
Export Text.

(** ** Exceptions *)

Inductive exn_class : Set :=
| IndexError | ValueError | NameError | OSError | RequestException
| DatabaseError.

(** An exception instance; [exn_msg] is what [str(e)] and [f'{e}'] give. *)
Record exn : Set := Exn { exn_kind : exn_class; exn_msg : string }.

Inductive result (A : Type) : Type :=
| Ok (a : A)
| Raise (e : exn).
Arguments Ok {A} a.
Arguments Raise {A} e.

#[export] Instance result_ret : MRet result := fun _ a => Ok a.
#[export] Instance result_bind : MBind result := fun _ _ f m =>
  match m with Ok a => f a | Raise e => Raise e end.

Definition index_error : exn := Exn IndexError "list index out of range".

(** [l[i]] on a Python list, for [i >= 0]. *)
Definition getitem {A} (l : list A) (i : nat) : result A :=
  match l !! i with
  | Some x => Ok x
  | None => Raise index_error
  end.

(** A [for] loop whose body may raise, threading the loop state. *)
Fixpoint for_each {A S} (body : S -> A -> result S) (l : list A) (s : S)
  : result S :=
  match l with
  | [] => Ok s
  | x :: l' => s' ← body s x; for_each body l' s'
  end.

(** ** Numbers *)

(** A float64 cell: [NaN] (also the missing-value marker of a frame),
    positive infinity, or a number. *)
Inductive float64 : Set :=
| NaN
| Inf
| Num (q : Q).

(** The least number that binary64 rounds to infinity. *)
Definition float64_overflow : Q := inject_Z (2 ^ 1024 - 2 ^ 970).

(** A non-negative number as a float64 cell: infinite from
    [float64_overflow] on. How the parser and the arithmetic round the
    few numbers next to that bound is not modelled. *)
Definition to_float64 (q : Q) : float64 :=
  if Qle_bool float64_overflow q then Inf else Num q.

(** [x / d] for a positive [d]. *)
Definition float_div (x : float64) (d : Q) : float64 :=
  match x with
  | NaN => NaN
  | Inf => Inf
  | Num q => to_float64 (q / d)%Q
  end.

(** [rint]: nearest integer, ties to the even one. *)
Definition rint (q : Q) : Z :=
  let f := Qfloor q in
  match (q - inject_Z f ?= 1 # 2)%Q with
  | Lt => f
  | Gt => (f + 1)%Z
  | Eq => if Z.even f then f else (f + 1)%Z
  end.

Definition pow10 (n : nat) : Z := 10 ^ Z.of_nat n.

(** [round(decimals)] of a float array, [decimals >= 0], as numpy does it:
    multiply by the power of ten, [rint], divide again; a product that
    overflows stays infinite. *)
Definition float_round (x : float64) (decimals : nat) : float64 :=
  match x with
  | NaN => NaN
  | Inf => Inf
  | Num q =>
      let f := inject_Z (pow10 decimals) in
      match to_float64 (q * f)%Q with
      | Num y => to_float64 (inject_Z (rint y) / f)%Q
      | other => other
      end
  end.

(** The run of decimal digits at the front of [s]: the accumulated value,
    the number of digits read and the unread rest. *)
Fixpoint scan_digits (s : string) (acc : Z) (n : nat) : Z * nat * string :=
  match s with
  | String c r =>
      if re_digit c then scan_digits r (10 * acc + digit_val c)%Z (S n)
      else (acc, n, s)
  | EmptyString => (acc, n, s)
  end.

(** The number parser behind [pd.to_numeric], on text over digits and
    periods, which is all the cleaned column can hold: digits, then
    optionally a period and digits, at least one digit in all, and nothing
    left over. Signs, exponents, blanks and the spellings of infinity
    cannot occur in such text and are not modelled. *)
Definition parse_number (s : string) : option Q :=
  let '(m1, n1, r1) := scan_digits s 0 0 in
  let '(m2, n2, r2) :=
    match r1 with
    | String c r =>
        if Ascii.eqb c "." then scan_digits r m1 0 else (m1, 0%nat, r1)
    | EmptyString => (m1, 0%nat, r1)
    end in
  if (n1 + n2 =? 0)%nat then None
  else match r2 with
       | EmptyString => Some (m2 # Z.to_pos (pow10 n2))
       | _ => None
       end.

Inductive errors_policy : Set := errors_raise | errors_coerce.

(** One cell of [pd.to_numeric(arg, errors=...)]: the empty text is a
    missing value, text that does not parse is [NaN] under [coerce] and a
    [ValueError] under [raise]. *)
Definition to_numeric_cell (errors : errors_policy) (s : string)
  : result float64 :=
  if is_empty s then Ok NaN
  else match parse_number s with
       | Some q => Ok (to_float64 q)
       | None =>
           match errors with
           | errors_coerce => Ok NaN
           | errors_raise =>
               Raise (Exn ValueError ("Unable to parse string " +:+ s))
           end
       end.

Fixpoint to_numeric (arg : list string) (errors : errors_policy)
  : result (list float64) :=
  match arg with
  | [] => Ok []
  | s :: arg' =>
      x ← to_numeric_cell errors s;
      xs ← to_numeric arg' errors;
      Ok (x :: xs)
  end.

(** ** Frames and the Transformer *)

(** A row of the frame [extract] returns; the fields are the columns named
    by [table_attribs]. *)
Record RawRow : Set := mkRaw { Country : string; GDP_USD_millions : string }.

(** A row of the frame [transform] returns. *)
Record CleanRow : Set := mkClean { country : string; GDP_USD_billions : float64 }.

(** [.str.replace(r'[^\d.]', '', regex=True)] on one cell. *)
Definition replace_non_numeric (s : string) : string :=
  str_filter (fun c => re_digit c || Ascii.eqb c ".") s.

Definition isna (x : float64) : bool :=
  match x with NaN => true | Inf | Num _ => false end.

(** [dropna(subset=["GDP_USD_billions"])] *)
Definition dropna (df : list CleanRow) : list CleanRow :=
  List.filter (fun r => negb (isna (GDP_USD_billions r))) df.

Definition transform (df : list RawRow) : result (list CleanRow) :=
  let cleaned := map replace_non_numeric (map GDP_USD_millions df) in
  gdp_millions ← to_numeric cleaned errors_coerce;
  let billions := map (fun x => float_round (float_div x 1000) 2) gdp_millions in
  let df_out := zip_with mkClean (map Country df) billions in
  let df_out := dropna df_out in
  Ok df_out.

(** ** The document tree *)

(** A node of the tree the HTML parser builds: text, a comment, or an
    element with its children in document order. *)
#[warnings="-register-all"] Inductive node : Type :=
| NavigableString (s : string)
| Comment (s : string)
| Tag (name : string) (children : list node).

(** [tag.descendants]: every node below [n], by a depth-first walk. *)
Fixpoint descendants (n : node) : list node :=
  match n with
  | Tag _ cs =>
      (fix below (l : list node) : list node :=
         match l with
         | [] => []
         | c :: l' => c :: descendants c ++ below l'
         end) cs
  | _ => []
  end.

Definition is_tag (name : string) (n : node) : bool :=
  match n with
  | Tag t _ => String.eqb t name
  | _ => false
  end.

(** [n.find_all(name)] *)
Definition find_all (name : string) (n : node) : list node :=
  List.filter (is_tag name) (descendants n).

(** [n.find(name)], also written [n.name]; [None] when there is none. *)
Definition find (name : string) (n : node) : option node :=
  head (find_all name n).

(** The text fragments [get_text(strip=True)] joins: each string below [n]
    stripped, the empty ones left out; comments are not text. *)
Definition stripped_strings (n : node) : list string :=
  omap (fun d =>
          match d with
          | NavigableString s =>
              let s' := strip s in
              if is_empty s' then None else Some s'
          | _ => None
          end) (descendants n).

(** [n.get_text(strip=True)] *)
Definition get_text (n : node) : string :=
  String.concat "" (stripped_strings n).

(** *** Places in the tree

    A place is the list of child numbers that leads from a node down to one
    of its descendants. *)

Fixpoint node_at (n : node) (path : list nat) : option node :=
  match path with
  | [] => Some n
  | i :: path' =>
      match n with
      | Tag _ cs =>
          match cs !! i with
          | Some c => node_at c path'
          | None => None
          end
      | _ => None
      end
  end.

(** Document order of two places: [p] comes first when it is a proper
    prefix of [q] (an element opens before what it holds) or goes through
    an earlier child where the two part. *)
Fixpoint path_before (p q : list nat) : bool :=
  match p, q with
  | [], [] => false
  | [], _ :: _ => true
  | _ :: _, [] => false
  | i :: p', j :: q' => (i <? j)%nat || ((i =? j)%nat && path_before p' q')
  end.

(** [descendants] with the place of each node. *)
Fixpoint positions (n : node) : list (list nat * node) :=
  match n with
  | Tag _ cs =>
      (fix below (i : nat) (l : list node) : list (list nat * node) :=
         match l with
         | [] => []
         | c :: l' =>
             ([i], c) :: map (prod_map (cons i) id) (positions c)
               ++ below (S i) l'
         end) 0%nat cs
  | _ => []
  end.

Fixpoint positions_below (i : nat) (cs : list node) : list (list nat * node) :=
  match cs with
  | [] => []
  | c :: cs' =>
      ([i], c) :: map (prod_map (cons i) id) (positions c)
        ++ positions_below (S i) cs'
  end.

(** [find_all] with the place of each element found. *)
Definition find_all_at (name : string) (n : node) : list (list nat * node) :=
  List.filter (fun x => is_tag name (snd x)) (positions n).

Definition in_document_order (x y : list nat * node) : Prop :=
  path_before (fst x) (fst y) = true.

Section node_induction.

Variable P : node -> Prop.
Hypothesis Hstring : forall s, P (NavigableString s).
Hypothesis Hcomment : forall s, P (Comment s).
Hypothesis Htag : forall name cs, Forall P cs -> P (Tag name cs).

Fixpoint node_induction (n : node) : P n :=
  match n with
  | NavigableString s => Hstring s
  | Comment s => Hcomment s
  | Tag name cs =>
      Htag name cs
        ((fix all (l : list node) : Forall P l :=
            match l with
            | [] => List.Forall_nil P
            | c :: l' => List.Forall_cons P c l' (node_induction c) (all l')
            end) cs)
  end.

End node_induction.

(** ** The surroundings of a run *)

(** What a run reads from outside. *)
Record env : Type := mkEnv {
  requests_get : string -> result string;  (* [requests.get(url).text] *)
  BeautifulSoup : string -> node;          (* [BeautifulSoup(page, 'html.parser')] *)
  now_strftime : string -> nat -> string;  (* [datetime.now().strftime(format)], n-th call *)
  can_open : string -> bool                (* whether the file at a path opens for writing *)
}.

Inductive connection : Set := conn_open | conn_closed.

Inductive printed : Set :=
| PrintText (s : string)
| PrintFrame (rows : list CleanRow).

(** The state a run works on. [conn] is the global name of the script:
    [None] while it is unbound. *)
Record world : Type := mkWorld {
  log_lines : list string;                       (* the lines of the log file *)
  csv_files : gmap string (list string * list CleanRow);  (* path to header and rows *)
  database : gmap string (list CleanRow);        (* table name to rows *)
  stdout : list printed;
  stderr : list string;
  conn : option connection;
  clock : nat                                    (* calls of [datetime.now] so far *)
}.

Definition M (A : Type) : Type := world -> result A * world.

#[export] Instance M_ret : MRet M := fun _ a w => (Ok a, w).
#[export] Instance M_bind : MBind M := fun _ _ f m w =>
  match m w with
  | (Ok a, w') => f a w'
  | (Raise e, w') => (Raise e, w')
  end.

Definition lift {A} (r : result A) : M A := fun w => (r, w).
Definition raise {A} (e : exn) : M A := fun w => (Raise e, w).
Definition modify (f : world -> world) : M unit := fun w => (Ok tt, f w).

(** [try: body except Exception as e: handler e] *)
Definition try_except {A} (body : M A) (handler : exn -> M A) : M A := fun w =>
  match body w with
  | (Raise e, w') => handler e w'
  | done => done
  end.

(** [try: body finally: fin]: [fin] always runs; what [body] returned or
    raised stands unless [fin] raises itself. *)
Definition try_finally {A} (body : M A) (fin : M unit) : M A := fun w =>
  let '(r, w') := body w in
  match fin w' with
  | (Ok _, w'') => (r, w'')
  | (Raise e, w'') => (Raise e, w'')
  end.

Definition append_log (line : string) (w : world) : world :=
  mkWorld (log_lines w ++ [line]) (csv_files w) (database w) (stdout w)
          (stderr w) (conn w) (clock w).
Definition write_csv (path : string) (f : list string * list CleanRow)
  (w : world) : world :=
  mkWorld (log_lines w) (<[path := f]> (csv_files w)) (database w) (stdout w)
          (stderr w) (conn w) (clock w).
Definition write_table (name : string) (rows : list CleanRow) (w : world)
  : world :=
  mkWorld (log_lines w) (csv_files w) (<[name := rows]> (database w))
          (stdout w) (stderr w) (conn w) (clock w).
Definition print_out (x : printed) (w : world) : world :=
  mkWorld (log_lines w) (csv_files w) (database w) (stdout w ++ [x])
          (stderr w) (conn w) (clock w).
Definition print_err (s : string) (w : world) : world :=
  mkWorld (log_lines w) (csv_files w) (database w) (stdout w)
          (stderr w ++ [s]) (conn w) (clock w).
Definition bind_conn (c : option connection) (w : world) : world :=
  mkWorld (log_lines w) (csv_files w) (database w) (stdout w)
          (stderr w) c (clock w).
Definition tick (w : world) : world :=
  mkWorld (log_lines w) (csv_files w) (database w) (stdout w)
          (stderr w) (conn w) (S (clock w)).

(** The state a fresh interpreter starts from, over the files present. *)
Definition boot (log : list string)
  (csvs : gmap string (list string * list CleanRow))
  (db : gmap string (list CleanRow)) : world :=
  mkWorld log csvs db [] [] None 0.

(** ** The script *)

Definition url : string :=
  "https://web.archive.org/web/20230902185326/https://en.wikipedia.org/wiki/List_of_countries_by_GDP_%28nominal%29".
Definition table_attribs : list string := ["Country"; "GDP_USD_millions"].
Definition db_name : string := "World_Economies.db".
Definition table_name : string := "Countries_by_GDP".
Definition csv_path : string := "Countries_by_GDP.csv".
Definition log_file : string := "/home/project/etl_project_log.txt".

Definition open_error (path : string) : exn :=
  Exn OSError ("cannot open " +:+ path).

(** *** Logger *)

Definition log_progress (E : env) (inp : string) : M unit := fun w =>
  let timestamp_format := "%Y-%b-%d-%H:%M:%S" in
  let timestamp := now_strftime E timestamp_format (clock w) in
  let w := tick w in
  if can_open E log_file
  then (Ok tt, append_log (timestamp +:+ " : " +:+ inp +:+ newline) w)
  else (Raise (open_error log_file), w).

(** *** Extractor *)

(** The body of the loop over the rows of the table. *)
Definition extract_row (df : list RawRow) (row : node) : result (list RawRow) :=
  let col := find_all "td" row in
  match col with
  | c0 :: _ =>
      match find "a" c0 with
      | Some a =>
          let country := get_text a in
          c2 ← getitem col 2;
          let gdp_raw := get_text c2 in
          if str_any isdigit gdp_raw
          then Ok (df ++ [mkRaw country gdp_raw])
          else Ok df
      | None => Ok df
      end
  | [] => Ok df
  end.

Definition extract (E : env) (url : string) (table_attribs : list string)
  : result (list RawRow) :=
  page ← requests_get E url;
  let data := BeautifulSoup E page in
  let df := [] in
  let tables := find_all "tbody" data in
  tb ← getitem tables 2;
  let rows := find_all "tr" tb in
  for_each extract_row rows df.

(** *** Sink *)

Definition load_to_csv (E : env) (df : list CleanRow) (csv_path : string)
  : M unit :=
  if can_open E csv_path
  then modify (write_csv csv_path (["Country"; "GDP_USD_billions"], df))
  else raise (open_error csv_path).

(** [sqlite3.connect(database)] *)
Definition sqlite3_connect (E : env) (db : string) : M connection :=
  if can_open E db then mret conn_open
  else raise (Exn DatabaseError "unable to open database file").

(** Reading the global name [conn]. *)
Definition get_conn : M connection := fun w =>
  match conn w with
  | Some c => (Ok c, w)
  | None => (Raise (Exn NameError "name 'conn' is not defined"), w)
  end.

Definition closed_error : exn :=
  Exn DatabaseError "Cannot operate on a closed database.".

Definition load_to_db (df : list CleanRow) (sql_connection : connection)
  (table_name : string) : M unit :=
  match sql_connection with
  | conn_open => modify (write_table table_name df)
  | conn_closed => raise closed_error
  end.

(** Splitting a statement at single blanks. *)
Fixpoint words_from (cur : string) (s : string) : list string :=
  match s with
  | EmptyString => [cur]
  | String c r =>
      if Ascii.eqb c " " then cur :: words_from EmptyString r
      else words_from (cur +:+ String c EmptyString) r
  end.
Definition words (s : string) : list string := words_from EmptyString s.

(** [x >= bound] as the database evaluates it; a missing value compares
    false. *)
Definition float_ge (x : float64) (bound : Q) : bool :=
  match x with
  | NaN => false
  | Inf => true
  | Num q => Qle_bool bound q
  end.

(** [pd.read_sql] on the one shape of statement the script issues,
    [SELECT * FROM t WHERE GDP_USD_billions >= n]; any other text is
    refused. *)
Definition read_sql (query_statement : string) (sql_connection : connection)
  : M (list CleanRow) := fun w =>
  match sql_connection with
  | conn_closed => (Raise closed_error, w)
  | conn_open =>
      match words query_statement with
      | ["SELECT"; "*"; "FROM"; t; "WHERE"; "GDP_USD_billions"; ">="; n] =>
          match parse_number n, database w !! t with
          | Some bound, Some rows =>
              (Ok (List.filter (fun r => float_ge (GDP_USD_billions r) bound) rows), w)
          | Some _, None => (Raise (Exn DatabaseError ("no such table: " +:+ t)), w)
          | None, _ => (Raise (Exn DatabaseError "syntax error"), w)
          end
      | _ => (Raise (Exn DatabaseError "statement outside the modelled fragment"), w)
      end
  end.

Definition run_query (query_statement : string) (sql_connection : connection)
  : M unit :=
  modify (print_out (PrintText query_statement));;
  query_output ← read_sql query_statement sql_connection;
  modify (print_out (PrintFrame query_output)).

(** *** Orchestration *)

Definition query_statement : string :=
  "SELECT * FROM " +:+ table_name +:+ " WHERE GDP_USD_billions >= 100".

(** The body of the [try] block. *)
Definition pipeline (E : env) : M unit :=
  log_progress E "Preliminaries complete. Initiating ETL process.";;
  df ← lift (extract E url table_attribs);
  log_progress E "Data extraction complete. Initiating transformation process.";;
  df ← lift (transform df);
  log_progress E "Data transformation complete. Initiating loading process.";;
  load_to_csv E df csv_path;;
  log_progress E "Data saved to CSV file.";;
  c ← sqlite3_connect E db_name;
  modify (bind_conn (Some c));;
  log_progress E "SQL connection initiated.";;
  c ← get_conn;
  load_to_db df c table_name;;
  log_progress E "Data loaded to database as table. Running the query.";;
  c ← get_conn;
  run_query query_statement c;;
  log_progress E "Process complete.".

(** The [except Exception as e] block. *)
Definition handler (E : env) (e : exn) : M unit :=
  log_progress E ("ERROR: " +:+ exn_msg e);;
  modify (print_err ("ERROR: " +:+ exn_msg e)).

(** [conn.close()] *)
Definition conn_close : M unit :=
  _ ← get_conn;
  modify (bind_conn (Some conn_closed)).

(** The [finally] block: [try: conn.close() except Exception: pass]. *)
Definition finally_block : M unit :=
  try_except conn_close (fun _ => mret tt).

(** The whole script; [Raise e] is an exception that leaves it uncaught. *)
Definition main (E : env) : M unit :=
  try_finally (try_except (pipeline E) (handler E)) finally_block.

(** ** Row-wise descriptions

    The statements below compare the code with what happens to one row. *)

(** One cell of [pd.to_numeric(..., errors='coerce')]. *)
Definition coerce_cell (s : string) : float64 :=
  match parse_number s with
  | Some x => to_float64 x
  | None => NaN
  end.

(** One RawRow through the Transformer: strip what is neither digit nor
    period, parse, divide by 1000, round to 2 decimals; no CleanRow when
    the stripped text does not parse. *)
Definition clean_row (r : RawRow) : option CleanRow :=
  match parse_number (replace_non_numeric (GDP_USD_millions r)) with
  | Some x =>
      Some (mkClean (Country r) (float_round (float_div (to_float64 x) 1000) 2))
  | None => None
  end.

(** [v] is [x] rounded to 2 decimals: a whole number of hundredths at most
    half a hundredth away from [x]. *)
Definition rounded_2dp (x v : Q) : Prop :=
  exists k : Z,
    v = (inject_Z k / 100)%Q /\ (v - (1 # 200) <= x)%Q /\ (x <= v + (1 # 200))%Q.

(** What the Extractor takes from one table row: the row counts when it
    has a data cell, the first data cell holds a hyperlink and the text of
    the third data cell holds a character that [str.isdigit] accepts; the
    country is the text of that hyperlink, the GDP text that of the third
    cell. *)
Definition kept_row (row : node) : option RawRow :=
  match find_all "td" row with
  | c0 :: _ =>
      match find "a" c0, find_all "td" row !! 2%nat with
      | Some a, Some c2 =>
          if str_any isdigit (get_text c2)
          then Some (mkRaw (get_text a) (get_text c2))
          else None
      | _, _ => None
      end
  | [] => None
  end.

(** A row with a hyperlink in its first data cell and fewer than three
    data cells. *)
Definition short_row (row : node) : bool :=
  match find_all "td" row with
  | c0 :: cols =>
      match find "a" c0 with
      | Some _ => (length cols <? 2)%nat
      | None => false
      end
  | [] => false
  end.

(** The row rule in the words of the specification: the third cell must
    hold a decimal digit, and the country is the text of the first cell. *)
Definition stated_row (row : node) : option RawRow :=
  match find_all "td" row with
  | c0 :: _ =>
      match find "a" c0, find_all "td" row !! 2%nat with
      | Some _, Some c2 =>
          if str_any re_digit (get_text c2)
          then Some (mkRaw (get_text c0) (get_text c2))
          else None
      | _, _ => None
      end
  | [] => None
  end.

(** The Extractor as the specification states it: whenever the third table
    body exists, the output is the table of its rows under [stated_row]. *)
Definition extract_as_stated (E : env) : Prop :=
  forall page tb,
    requests_get E url = Ok page ->
    find_all "tbody" (BeautifulSoup E page) !! 2%nat = Some tb ->
    extract E url table_attribs = Ok (omap stated_row (find_all "tr" tb)).

(** The line [log_progress] writes for [inp] in state [w]. *)
Definition log_line (E : env) (w : world) (inp : string) : string :=
  now_strftime E "%Y-%b-%d-%H:%M:%S" (clock w) +:+ " : " +:+ inp +:+ newline.

(** The run reaches the Extraction stage, which raises [e]: the statement
    before it in the [try] block has come back, and [extract] raises. *)
Definition extraction_raises (E : env) (w : world) (e : exn) : Prop :=
  exists w1,
    log_progress E "Preliminaries complete. Initiating ETL process." w = (Ok tt, w1) /\
    extract E url table_attribs = Raise e.

(** The Logger as the specification states it: no run ends with an
    exception that a logging call let out. A run of [main] can only end
    with an exception through the logging call of its handler. *)
Definition logger_never_aborts : Prop :=
  forall (E : env) (w : world), exists w', main E w = (Ok tt, w').


(** ** Sample pages and runs *)

Module Samples.

Definition text : string -> node := NavigableString.
Definition td (l : list node) : node := Tag "td" l.
Definition tr (l : list node) : node := Tag "tr" l.
Definition link (s : string) : node := Tag "a" [text s].
Definition table (rows : list node) : node := Tag "table" [Tag "tbody" rows].

(** A page whose third table body holds [rows]. *)
Definition page (rows : list node) : node :=
  Tag "[document]"
    [Tag "html"
       [Tag "body" [table [tr [Tag "th" [text "Legend"]]]; table []; table rows]]].

(** A row as the archived page has them: linked country, region, GDP. *)
Definition gdp_row (c region gdp : string) : node :=
  tr [td [link c]; td [text region]; td [text gdp]].

(** Surroundings that serve the tree [data]; [log_ok] says whether the log
    file opens, every other file does. *)
Definition env_of (data : node) (log_ok : bool) : env :=
  mkEnv (fun _ => Ok "<html>") (fun _ => data)
        (fun _ _ => "2023-Sep-02-18:53:26")
        (fun path => if String.eqb path log_file then log_ok else true).

Definition superscript_two : string := String (ascii_of_nat 178) EmptyString.

Definition rows_plain : list node :=
  [tr [Tag "th" [text "Country"]];
   gdp_row " France " "Europe" "2,923,489";
   gdp_row "Tuvalu" "Oceania" "-";
   gdp_row "Japan" "Asia" "4,409,738"].

(** The second row has a linked first cell and nothing else. *)
Definition rows_short : list node :=
  [gdp_row "France" "Europe" "2,923,489"; tr [td [link "Kosovo"]]].

(** The first cell holds a note after the hyperlink. *)
Definition rows_note : list node :=
  [tr [td [link "China"; text "[n 1]"]; td [text "Asia"]; td [text "19,373,586"]]].

(** The third cell holds a superscript two and no decimal digit. *)
Definition rows_superscript : list node :=
  [gdp_row "Nauru" "Oceania" superscript_two].

(** A page with two table bodies only. *)
Definition page_two_tables : node :=
  Tag "[document]" [Tag "html" [Tag "body" [table []; table rows_plain]]].

Definition fresh : world := boot [] ∅ ∅.

End Samples.

(** ** Further descriptions

    Notions used to state what the functions do beyond the rows they keep. *)

(** How often [c] occurs in [s]. *)
Fixpoint count_char (c : ascii) (s : string) : nat :=
  match s with
  | EmptyString => 0
  | String a r => (if Ascii.eqb a c then 1 else 0) + count_char c r
  end.

Definition starts_with_space (s : string) : bool :=
  match s with
  | String c _ => isspace c
  | EmptyString => false
  end.

Fixpoint ends_with_space (s : string) : bool :=
  match s with
  | EmptyString => false
  | String c EmptyString => isspace c
  | String _ r => ends_with_space r
  end.

(** The rows the top-level query selects from a table. *)
Definition at_least_100 (rows : list CleanRow) : list CleanRow :=
  List.filter (fun r => float_ge (GDP_USD_billions r) 100) rows.

(** The messages a run logs when every stage succeeds, in order. *)
Definition stage_messages : list string :=
  ["Preliminaries complete. Initiating ETL process.";
   "Data extraction complete. Initiating transformation process.";
   "Data transformation complete. Initiating loading process.";
   "Data saved to CSV file.";
   "SQL connection initiated.";
   "Data loaded to database as table. Running the query.";
   "Process complete."].

(** The log lines for [msgs], written at clock readings [first],
    [first + 1], ... *)
Definition log_entries (E : env) (first : nat) (msgs : list string)
  : list string :=
  imap (fun i msg =>
          now_strftime E "%Y-%b-%d-%H:%M:%S" (first + i) +:+ " : " +:+ msg +:+ newline)
       msgs.

(** [w'] comes after [w] in a run: the log and the two output streams
    have only grown at their ends, and no CSV file other than [csv_path]
    and no table other than [table_name] has changed. *)
Definition extends (w w' : world) : Prop :=
  log_lines w `prefix_of` log_lines w' /\
  stdout w `prefix_of` stdout w' /\
  stderr w `prefix_of` stderr w' /\
  (forall path, path <> csv_path -> csv_files w' !! path = csv_files w !! path) /\
  (forall t, t <> table_name -> database w' !! t = database w !! t).

(** A statement of the script that only ever moves the state forward. *)
Definition keeps {A} (m : M A) : Prop := forall w, extends w (snd (m w)).

Module MoreSamples.

(** Surroundings that serve the tree [data] and in which every file opens
    but the one at [blocked]. *)
Definition env_blocking (data : node) (blocked : string) : env :=
  mkEnv (fun _ => Ok "<html>") (fun _ => data)
        (fun _ n => "2023-Sep-02-18:53:2" +:+ String (ascii_of_nat (48 + n)) EmptyString)
        (fun path => negb (String.eqb path blocked)).




Definition plain_page : node := Samples.page Samples.rows_plain.

Definition plain_clean : list CleanRow :=
  [mkClean "France" (Num 2923.49); mkClean "Japan" (Num 4409.74)].

End MoreSamples.

(** * Properties *)

(** ** Text and numbers *)

Section TextFacts.

Variables p q : ascii -> bool.


Lemma str_all_filter (s : string) : str_all q (str_filter q s) = true.
Proof.
  induction s as [|c r IH]; simpl; [done|].
  destruct (q c) eqn:Hc; simpl; [rewrite Hc|]; done.
Qed.

Lemma str_filter_all (s : string) :
  str_all q s = true -> str_filter q s = s.
Proof.
  induction s as [|c r IH]; simpl; [done|].
  intros [Hc Hr]%andb_true_iff. rewrite Hc, IH; done.
Qed.

End TextFacts.

Lemma re_digit_val (c : ascii) :
  re_digit c = true -> (0 <= digit_val c <= 9)%Z.
Proof.
  unfold re_digit, digit_val.
  intros [H1 H2]%andb_true_iff.
  apply N.leb_le in H1, H2. lia.
Qed.

(** Every decimal digit passes [str.isdigit]; the superscript two passes
    [str.isdigit] and is no decimal digit. *)
Lemma re_digit_isdigit (c : ascii) : re_digit c = true -> isdigit c = true.
Proof. unfold isdigit. intros ->. done. Qed.

Lemma isdigit_not_re_digit :
  isdigit (ascii_of_nat 178) = true /\ re_digit (ascii_of_nat 178) = false.
Proof. split; reflexivity. Qed.

(** What [scan_digits] returns: the count only grows, a non-negative
    accumulator stays so, a grown count means a digit was read, and the
    rest is a part of the input. *)
Lemma scan_digits_spec (s : string) :
  forall acc n m n' r,
    scan_digits s acc n = (m, n', r) ->
    (n <= n')%nat /\
    ((0 <= acc)%Z -> (0 <= m)%Z) /\
    ((n < n')%nat -> str_any re_digit s = true) /\
    (forall f, str_any f r = true -> str_any f s = true).
Proof.
  induction s as [|c s IH]; simpl; intros acc n m n' r H.
  - inversion H; subst. split; [|split; [|split]]; auto; lia.
  - destruct (re_digit c) eqn:Hc.
    + apply IH in H as (H1 & H2 & H3 & H4).
      pose proof (re_digit_val c Hc).
      split; [|split; [|split]]; [lia | intros; apply H2; lia | done |].
      intros f Hf. rewrite (H4 f Hf). apply orb_true_r.
    + inversion H; subst. split; [|split; [|split]]; auto; lia.
Qed.

(** Text that parses holds a decimal digit and denotes a non-negative
    number. *)
Lemma parse_number_digit (s : string) (x : Q) :
  parse_number s = Some x -> str_any re_digit s = true /\ (0 <= x)%Q.
Proof.
  unfold parse_number.
  destruct (scan_digits s 0 0) as [[m1 n1] r1] eqn:H1.
  apply scan_digits_spec in H1 as (_ & Hm1 & Hd1 & Hr1).
  specialize (Hm1 ltac:(lia)).
  assert (Hfin : forall m2 n2 r2,
    ((0 <= m2)%Z) ->
    ((n1 + n2 =? 0)%nat = false -> str_any re_digit s = true) ->
    (if (n1 + n2 =? 0)%nat then None
     else match r2 with
          | EmptyString => Some (m2 # Z.to_pos (pow10 n2))
          | String _ _ => None
          end) = Some x ->
    str_any re_digit s = true /\ (0 <= x)%Q).
  { intros m2 n2 r2 Hm2 Hd. destruct (n1 + n2 =? 0)%nat; [done|].
    destruct r2; [|done]. intros [= <-]. split; [auto|].
    unfold Qle; simpl. lia. }
  destruct r1 as [|c r].
  - apply (Hfin m1 0%nat ""); [done|]. intros Hn%Nat.eqb_neq. apply Hd1. lia.
  - destruct (Ascii.eqb c ".").
    + destruct (scan_digits r m1 0) as [[m2 n2] r2] eqn:H2.
      apply scan_digits_spec in H2 as (_ & Hm2 & Hd2 & _).
      apply (Hfin m2 n2 r2); [auto|]. intros Hn%Nat.eqb_neq.
      destruct n1 as [|n1]; [|apply Hd1; lia].
      apply Hr1. simpl. rewrite Hd2; [apply orb_true_r | lia].
    + apply (Hfin m1 0%nat (String c r)); [done|].
      intros Hn%Nat.eqb_neq. apply Hd1. lia.
Qed.

(** The cleaned column holds digits and periods only. *)
Lemma cleaned_alphabet (s : string) :
  str_all (fun c => re_digit c || Ascii.eqb c ".") (replace_non_numeric s) = true.
Proof. apply str_all_filter. Qed.

Lemma Qfloor_nonneg (x : Q) : (0 <= x)%Q -> (0 <= Qfloor x)%Z.
Proof. intros H. apply (Qfloor_resp_le 0 x) in H. exact H. Qed.

Lemma rint_nonneg (x : Q) : (0 <= x)%Q -> (0 <= rint x)%Z.
Proof.
  intros H%Qfloor_nonneg. unfold rint.
  destruct (_ ?= _)%Q; [destruct (Z.even _)| |]; lia.
Qed.

(** [rint] is at most one half away from its argument. *)
Lemma rint_nearest (y : Q) :
  (inject_Z (rint y) - (1 # 2) <= y)%Q /\ (y <= inject_Z (rint y) + (1 # 2))%Q.
Proof.
  unfold rint.
  pose proof (Qfloor_le y) as Hlo. pose proof (Qlt_floor y) as Hhi.
  rewrite inject_Z_plus in Hhi. change (inject_Z 1) with 1%Q in Hhi.
  destruct (y - inject_Z (Qfloor y) ?= 1 # 2)%Q eqn:Hc.
  - apply Qeq_alt in Hc.
    destruct (Z.even (Qfloor y)); rewrite ?inject_Z_plus;
      change (inject_Z 1) with 1%Q; lra.
  - apply Qlt_alt in Hc. lra.
  - apply Qgt_alt in Hc. rewrite inject_Z_plus.
    change (inject_Z 1) with 1%Q. lra.
Qed.

Lemma Qdiv_nonneg (x d : Q) : (0 <= x)%Q -> (0 < d)%Q -> (0 <= x / d)%Q.
Proof.
  intros Hx Hd. apply Qle_shift_div_l; [done|]. rewrite Qmult_0_l. done.
Qed.

(** The overflow bound lies between 10^308 and 2^1024. *)
Lemma float64_overflow_bounds :
  (inject_Z (10 ^ 308) <= float64_overflow)%Q /\
  (float64_overflow <= inject_Z (2 ^ 1024))%Q /\
  (1 <= float64_overflow)%Q.
Proof.
  unfold float64_overflow. change 1%Q with (inject_Z 1).
  rewrite <- !Zle_Qle. repeat split; vm_compute; discriminate.
Qed.

Lemma to_float64_cases (x : Q) :
  to_float64 x = Inf /\ (float64_overflow <= x)%Q \/
  to_float64 x = Num x /\ (x < float64_overflow)%Q.
Proof.
  unfold to_float64. destruct (Qle_bool float64_overflow x) eqn:H.
  - left. split; [done|]. apply Qle_bool_iff, H.
  - right. split; [done|]. apply Qnot_le_lt. intros Hle.
    apply Qle_bool_iff in Hle. congruence.
Qed.

(** A number below the overflow bound, divided by 1000 and rounded to 2
    decimals, is a whole number of hundredths, not negative, at most 0.005
    away from the quotient. *)
Lemma float_round_2dp (x : Q) :
  (0 <= x)%Q -> (x < float64_overflow)%Q ->
  exists v : Q,
    float_round (float_div (Num x) 1000) 2 = Num v /\
    rounded_2dp (x / 1000) v /\ (0 <= v)%Q.
Proof.
  intros Hx Hb. destruct float64_overflow_bounds as (_ & _ & Hone).
  assert (Hy : (x == x / 1000 * 1000)%Q) by (field; done).
  set (y := (x / 1000)%Q) in *.
  unfold float_div. fold y.
  destruct (to_float64_cases y) as [[_ H]|[-> _]]; [lra|].
  unfold float_round. change (inject_Z (pow10 2)) with 100%Q.
  destruct (to_float64_cases (y * 100)) as [[_ H]|[-> _]]; [lra|].
  destruct (rint_nearest (y * 100)) as [Hlo Hhi].
  assert (Hpos : (0 <= rint (y * 100))%Z) by (apply rint_nonneg; lra).
  rewrite Zle_Qle in Hpos. change (inject_Z 0) with 0%Q in Hpos.
  set (k := rint (y * 100)) in *.
  assert (Hv : (inject_Z k == inject_Z k / 100 * 100)%Q) by (field; done).
  destruct (to_float64_cases (inject_Z k / 100)) as [[_ H]|[-> _]].
  { set (v := (inject_Z k / 100)%Q) in *. lra. }
  exists (inject_Z k / 100)%Q. split; [done|]. split.
  - exists k. split; [done|].
    set (v := (inject_Z k / 100)%Q) in *. lra.
  - set (v := (inject_Z k / 100)%Q) in *. lra.
Qed.

(** Neither a parsed number nor the division nor the rounding brings up a
    NaN. *)
Lemma to_float64_isna (x : Q) : isna (to_float64 x) = false.
Proof. unfold to_float64. destruct (Qle_bool _ _); done. Qed.

Lemma float_div_isna (x : float64) (d : Q) :
  isna x = false -> isna (float_div x d) = false.
Proof. destruct x; [done..|]. intros _. apply to_float64_isna. Qed.

Lemma float_round_isna (x : float64) (decimals : nat) :
  isna x = false -> isna (float_round x decimals) = false.
Proof.
  destruct x as [| |q]; [done..|]. intros _. unfold float_round.
  pose proof (to_float64_isna (q * inject_Z (pow10 decimals))) as H.
  destruct (to_float64 (q * inject_Z (pow10 decimals))); [done..|].
  apply to_float64_isna.
Qed.


(** The digits read by [scan_digits] bound the value they make, and what
    is read and what is left make up the input. *)
Lemma scan_digits_bound (s : string) :
  forall acc n m n' r,
    scan_digits s acc n = (m, n', r) ->
    (0 <= acc)%Z ->
    (m < (acc + 1) * 10 ^ Z.of_nat (n' - n))%Z /\
    (n' + String.length r = n + String.length s)%nat.
Proof.
  induction s as [|c s IH]; simpl; intros acc n m n' r H Hacc.
  - inversion H; subst. rewrite Nat.sub_diag. simpl. lia.
  - destruct (re_digit c) eqn:Hc.
    + pose proof (re_digit_val c Hc) as Hd.
      pose proof (scan_digits_spec _ _ _ _ _ _ H) as (Hle & _).
      apply IH in H as [Hm Hn]; [|lia]. split; [|lia].
      replace (n' - n)%nat with (S (n' - S n)) by lia.
      rewrite Nat2Z.inj_succ, Z.pow_succ_r by lia.
      assert (0 < 10 ^ Z.of_nat (n' - S n))%Z by (apply Z.pow_pos_nonneg; lia).
      nia.
    + inversion H; subst. rewrite Nat.sub_diag. simpl. lia.
Qed.

(** Text that parses denotes a number below ten to the power of its
    length. *)
Lemma parse_number_bound (s : string) (x : Q) :
  parse_number s = Some x ->
  (x < inject_Z (10 ^ Z.of_nat (String.length s)))%Q.
Proof.
  unfold parse_number.
  destruct (scan_digits s 0 0) as [[m1 n1] r1] eqn:H1.
  pose proof (scan_digits_spec _ _ _ _ _ _ H1) as (_ & Hp1 & _).
  specialize (Hp1 ltac:(lia)).
  apply scan_digits_bound in H1 as [Hm1 Hn1]; [|lia].
  rewrite Nat.sub_0_r in Hm1. simpl in Hn1.
  assert (Hfin : forall m2 n2 r2,
    (0 <= m2)%Z ->
    (m2 < 10 ^ Z.of_nat (n1 + n2))%Z ->
    (r2 = EmptyString -> (n1 + n2 <= String.length s)%nat) ->
    (if (n1 + n2 =? 0)%nat then None
     else match r2 with
          | EmptyString => Some (m2 # Z.to_pos (pow10 n2))
          | String _ _ => None
          end) = Some x ->
    (x < inject_Z (10 ^ Z.of_nat (String.length s)))%Q).
  { intros m2 n2 r2 Hpos Hm2 Hlen. destruct (n1 + n2 =? 0)%nat; [done|].
    destruct r2; [|done]. intros [= <-]. specialize (Hlen eq_refl).
    unfold Qlt. simpl.
    assert (10 ^ Z.of_nat (n1 + n2) <= 10 ^ Z.of_nat (String.length s))%Z
      by (apply Z.pow_le_mono_r; lia).
    assert (0 < 10 ^ Z.of_nat (n1 + n2))%Z by (apply Z.pow_pos_nonneg; lia).
    nia. }
  destruct r1 as [|c r].
  - apply (Hfin m1 0%nat ""); [lia | rewrite Nat.add_0_r; lia | simpl in *; lia].
  - destruct (Ascii.eqb c ".").
    + destruct (scan_digits r m1 0) as [[m2 n2] r2] eqn:H2.
      pose proof (scan_digits_spec _ _ _ _ _ _ H2) as (_ & Hp2 & _).
      apply scan_digits_bound in H2 as [Hm2 Hn2]; [|lia].
      rewrite Nat.sub_0_r in Hm2. simpl in Hn1, Hn2.
      apply (Hfin m2 n2 r2); [auto | | intros ->; simpl in *; lia].
      rewrite Nat2Z.inj_add, Z.pow_add_r by lia.
      assert (0 < 10 ^ Z.of_nat n2)%Z by (apply Z.pow_pos_nonneg; lia).
      nia.
    + apply (Hfin m1 0%nat (String c r)); [lia | rewrite Nat.add_0_r; lia | discriminate].
Qed.

(** ** Transformer *)

Lemma to_numeric_coerce (arg : list string) :
  to_numeric arg errors_coerce = Ok (map coerce_cell arg).
Proof.
  induction arg as [|s arg IH]; simpl; [done|].
  rewrite IH. unfold to_numeric_cell, coerce_cell.
  destruct s; [done|]. simpl is_empty.
  destruct (parse_number _); done.
Qed.

(** The frame-at-a-time code converts row by row and keeps the order. *)
Lemma transform_rows (df : list RawRow) :
  transform df = Ok (omap clean_row df).
Proof.
  unfold transform. rewrite to_numeric_coerce. simpl. f_equal.
  induction df as [|r df IH]; simpl; [done|].
  rewrite IH. unfold clean_row, coerce_cell.
  destruct (parse_number (replace_non_numeric (GDP_USD_millions r))) as [x|];
    [|done].
  rewrite float_round_isna; [done|]. apply float_div_isna, to_float64_isna.
Qed.


(** C1: the Transformer keeps every digit of the GDP text, also the one
    inside a footnote marker. Raw text "1,234" gives 1.23 as the
    specification says, but for raw text "25,678[5]" the stripped text is
    "256785" and the value lies between 256.78 and 256.79; it is not the
    25.68 the specification gives. *)
Theorem transform_footnote_digit_kept (c : string) :
  replace_non_numeric "25,678[5]" = "256785" /\
  transform [mkRaw c "1,234"] = Ok [mkClean c (Num 1.23)] /\
  exists v : Q,
    transform [mkRaw c "25,678[5]"] = Ok [mkClean c (Num v)] /\
    (256.78 <= v)%Q /\ (v <= 256.79)%Q /\ ~ (v == 25.68)%Q.
Proof.
  split; [reflexivity|]. split; [reflexivity|].
  exists 256.78%Q. split; [reflexivity|]. repeat split; try discriminate.
Qed.

(** C3: a row whose stripped GDP text is empty or does not parse leaves no
    entry in the output, which is that of the Table without the row; the
    Transformer returns a Table on every input, it never raises. *)
Theorem transform_drops_unconvertible (pre post : list RawRow) (r : RawRow) :
  replace_non_numeric (GDP_USD_millions r) = "" \/
  parse_number (replace_non_numeric (GDP_USD_millions r)) = None ->
  (exists out, transform (pre ++ r :: post) = Ok out) /\
  transform (pre ++ r :: post) = transform (pre ++ post).
Proof.
  intros H. rewrite !transform_rows. split; [eauto|]. f_equal.
  assert (Hr : clean_row r = None).
  { unfold clean_row. destruct H as [-> | ->]; done. }
  rewrite !omap_app. simpl. rewrite Hr. done.
Qed.

Lemma transform_drops_unconvertible_witness :
  (replace_non_numeric "-" = "" \/ parse_number (replace_non_numeric "-") = None) /\
  (exists out,
     transform ([mkRaw "France" "2,923,489"] ++ mkRaw "Tuvalu" "-" :: [mkRaw "Japan" "4,409,738"])
     = Ok out) /\
  transform ([mkRaw "France" "2,923,489"] ++ mkRaw "Tuvalu" "-" :: [mkRaw "Japan" "4,409,738"])
  = transform ([mkRaw "France" "2,923,489"] ++ [mkRaw "Japan" "4,409,738"]).
Proof.
  split; [left; reflexivity|].
  apply (transform_drops_unconvertible
           [mkRaw "France" "2,923,489"] [mkRaw "Japan" "4,409,738"]
           (mkRaw "Tuvalu" "-")).
  left. reflexivity.
Defined.




(** ** Document order *)

Lemma positions_Tag (name : string) (cs : list node) :
  positions (Tag name cs) = positions_below 0 cs.
Proof.
  simpl. generalize 0%nat.
  induction cs as [|c cs IH]; intros i; simpl; [done|]. rewrite IH. done.
Qed.

Lemma descendants_Tag (name : string) (cs : list node) :
  descendants (Tag name cs) = flat_map (fun c => c :: descendants c) cs.
Proof.
  simpl. induction cs as [|c cs IH]; simpl; [done|]. rewrite IH. done.
Qed.

Lemma map_snd_prod_map (i : nat) (l : list (list nat * node)) :
  map snd (map (prod_map (cons i) id) l) = map snd l.
Proof. rewrite map_map. apply map_ext. intros [? ?]. done. Qed.

(** [positions] lists the descendants, in the order of [descendants]. *)
Lemma positions_nodes (n : node) : map snd (positions n) = descendants n.
Proof.
  induction n as [s|s|name cs IH] using node_induction; [done..|].
  rewrite positions_Tag, descendants_Tag. generalize 0%nat.
  induction IH as [|c cs Hc _ IHcs]; intros i; simpl; [done|].
  rewrite map_app, map_snd_prod_map, Hc, IHcs. done.
Qed.

(** Every place listed below the children [cs], numbered from [i] on,
    starts with the number of one of them and goes on with a place of
    that child (or stops there). *)
Lemma positions_below_spec (cs : list node) :
  forall i,
    Forall (fun x =>
              exists j c p,
                fst x = (i + j)%nat :: p /\ cs !! j = Some c /\
                (p = [] /\ snd x = c \/ (p, snd x) ∈ positions c))
           (positions_below i cs).
Proof.
  induction cs as [|c cs IH]; intros i; simpl; [constructor|].
  constructor; [|apply Forall_app; split].
  - exists 0%nat, c, []. rewrite Nat.add_0_r. auto.
  - apply Forall_forall. intros [p d] Hin.
    apply list_elem_of_In, in_map_iff in Hin as ([p' d'] & [= <- <-] & Hin).
    exists 0%nat, c, p'. rewrite Nat.add_0_r. simpl.
    split; [done|]. split; [done|]. right. apply list_elem_of_In. done.
  - eapply Forall_impl; [apply (IH (S i))|].
    intros x (j & c' & p' & Hx & Hj & Hp).
    exists (S j), c', p'. rewrite Nat.add_succ_r. done.
Qed.

(** A place listed for [n] leads to the node listed with it, and is not
    the place of [n] itself. *)
Lemma positions_node_at (n : node) :
  Forall (fun x => node_at n (fst x) = Some (snd x) /\ fst x <> [])
         (positions n).
Proof.
  induction n as [s|s|name cs IH] using node_induction; [constructor..|].
  rewrite positions_Tag.
  eapply Forall_impl; [apply positions_below_spec|].
  intros [p d] (j & c & p' & Hx & Hj & Hp). simpl in *. subst p.
  split; [|done]. simpl. rewrite Hj.
  destruct Hp as [[-> ->] | Hin]; [done|].
  rewrite Forall_forall in IH.
  apply list_elem_of_lookup_2, IH in Hj.
  rewrite Forall_forall in Hj. apply (Hj _ Hin).
Qed.

Lemma path_before_cons (i : nat) (p q : list nat) :
  path_before (i :: p) (i :: q) = path_before p q.
Proof. simpl. rewrite Nat.ltb_irrefl, Nat.eqb_refl. done. Qed.

Lemma positions_below_sorted (cs : list node) :
  Forall (fun c => StronglySorted in_document_order (positions c)) cs ->
  forall i, StronglySorted in_document_order (positions_below i cs).
Proof.
  induction 1 as [|c cs Hc _ IH]; intros i; simpl; [constructor|].
  assert (Hlater : forall y, y ∈ positions_below (S i) cs ->
                     exists j q, fst y = (S i + j)%nat :: q).
  { intros y Hy. pose proof (positions_below_spec cs (S i)) as Hs.
    rewrite Forall_forall in Hs.
    destruct (Hs y Hy) as (j & _ & q & Hq & _). eauto. }
  apply StronglySorted_cons. split.
  - apply Forall_app. split; apply Forall_forall.
    + intros [p d] Hin.
      apply list_elem_of_In, in_map_iff in Hin as ([p' d'] & [= <- <-] & Hin).
      pose proof (positions_node_at c) as Hn. rewrite Forall_forall in Hn.
      apply list_elem_of_In, Hn in Hin as [_ Hne]. simpl in Hne.
      unfold in_document_order. simpl.
      rewrite Nat.ltb_irrefl, Nat.eqb_refl. destruct p'; done.
    + intros y (j & q & Hy)%Hlater.
      unfold in_document_order. rewrite Hy. simpl.
      apply orb_true_iff. left. apply Nat.ltb_lt. lia.
  - apply StronglySorted_app_2.
    + intros [p d] y Hin (j & q & Hy)%Hlater.
      apply list_elem_of_In, in_map_iff in Hin as ([p' d'] & [= <- <-] & Hin).
      unfold in_document_order. rewrite Hy. simpl.
      apply orb_true_iff. left. apply Nat.ltb_lt. lia.
    + apply (StronglySorted_fmap _ in_document_order); [|done].
      intros [p1 d1] [p2 d2]. unfold in_document_order. simpl.
      rewrite Nat.ltb_irrefl, Nat.eqb_refl. done.
    + apply IH.
Qed.

(** [descendants] lists the nodes in document order. *)
Lemma positions_sorted (n : node) :
  StronglySorted in_document_order (positions n).
Proof.
  induction n as [s|s|name cs IH] using node_induction; [constructor..|].
  rewrite positions_Tag. apply positions_below_sorted. done.
Qed.

Lemma StronglySorted_filter {A} (R : A -> A -> Prop) (f : A -> bool) (l : list A) :
  StronglySorted R l -> StronglySorted R (List.filter f l).
Proof.
  induction 1 as [|x l _ IH Hx]; simpl; [constructor|].
  destruct (f x); [|done]. constructor; [done|].
  rewrite Forall_forall in *. intros y Hy%list_elem_of_In%filter_In.
  apply Hx, list_elem_of_In, Hy.
Qed.

Lemma find_all_at_nodes (name : string) (n : node) :
  map snd (find_all_at name n) = find_all name n.
Proof.
  unfold find_all_at, find_all. rewrite <- positions_nodes.
  induction (positions n) as [|[p d] l IH]; simpl; [done|].
  destruct (is_tag name d); simpl; rewrite IH; done.
Qed.

(** [find_all] lists the elements found in document order, each at a
    place below the node searched. *)
Lemma find_all_at_spec (name : string) (n : node) :
  StronglySorted in_document_order (find_all_at name n) /\
  Forall (fun x => node_at n (fst x) = Some (snd x) /\ is_tag name (snd x) = true)
         (find_all_at name n).
Proof.
  split.
  - apply StronglySorted_filter, positions_sorted.
  - pose proof (positions_node_at n) as H. rewrite Forall_forall in *.
    intros x [Hx Ht]%list_elem_of_In%filter_In. split; [|done].
    apply H, list_elem_of_In, Hx.
Qed.

(** ** Extractor *)

Lemma extract_row_short (df : list RawRow) (row : node) :
  short_row row = true -> extract_row df row = Raise index_error.
Proof.
  unfold short_row, extract_row.
  destruct (find_all "td" row) as [|c0 cols]; [done|].
  destruct (find "a" c0); [|done].
  destruct cols as [|c1 [|c2 cols]]; done.
Qed.

Lemma extract_row_kept (df : list RawRow) (row : node) :
  short_row row = false ->
  extract_row df row = Ok (df ++ omap kept_row [row]).
Proof.
  unfold short_row, extract_row, kept_row. simpl.
  destruct (find_all "td" row) as [|c0 cols]; simpl.
  { intros _. rewrite app_nil_r. done. }
  destruct (find "a" c0); [|intros _; rewrite app_nil_r; done].
  destruct cols as [|c1 [|c2 cols]]; [done..|]. intros _. simpl.
  destruct (str_any isdigit (get_text c2)); [done|].
  rewrite app_nil_r. done.
Qed.

(** The loop over the rows: it raises as soon as a short row is met, and
    otherwise appends the kept rows in order. *)
Lemma for_each_extract_row (rows : list node) :
  forall df,
    for_each extract_row rows df =
    if existsb short_row rows then Raise index_error
    else Ok (df ++ omap kept_row rows).
Proof.
  induction rows as [|row rows IH]; intros df; simpl.
  { rewrite app_nil_r. done. }
  destruct (short_row row) eqn:Hs; simpl.
  - rewrite extract_row_short; done.
  - rewrite extract_row_kept by done. simpl. rewrite IH.
    destruct (existsb short_row rows); [done|].
    rewrite <- app_assoc. destruct (kept_row row); done.
Qed.

Lemma extract_spec (E : env) (page : string) :
  requests_get E url = Ok page ->
  extract E url table_attribs =
  match find_all "tbody" (BeautifulSoup E page) !! 2%nat with
  | None => Raise index_error
  | Some tb =>
      if existsb short_row (find_all "tr" tb) then Raise index_error
      else Ok (omap kept_row (find_all "tr" tb))
  end.
Proof.
  intros Hp. unfold extract. rewrite Hp. simpl. unfold getitem.
  destruct (_ !! _) as [tb|]; [|done]. simpl.
  apply for_each_extract_row.
Qed.

(** C2, as amended: when the third table body exists and none of its rows
    is short (a hyperlink in the first data cell and fewer than three data
    cells), the Extractor returns the rows that have a data cell, a
    hyperlink in the first data cell and an [isdigit] character in the
    text of the third data cell; each carries the text of that hyperlink
    as country and the text of the third cell as GDP text. *)
Theorem extract_rows (E : env) (page : string) (tb : node) :
  requests_get E url = Ok page ->
  find_all "tbody" (BeautifulSoup E page) !! 2%nat = Some tb ->
  existsb short_row (find_all "tr" tb) = false ->
  extract E url table_attribs = Ok (omap kept_row (find_all "tr" tb)).
Proof.
  intros Hp Htb Hs. rewrite (extract_spec E page Hp), Htb, Hs. done.
Qed.

Lemma extract_rows_witness :
  existsb short_row Samples.rows_plain = false /\
  extract (Samples.env_of (Samples.page Samples.rows_plain) true) url table_attribs =
  Ok [mkRaw "France" "2,923,489"; mkRaw "Japan" "4,409,738"].
Proof.
  split; [reflexivity|].
  apply (extract_rows (Samples.env_of (Samples.page Samples.rows_plain) true)
           "<html>" (Tag "tbody" Samples.rows_plain));
    reflexivity.
Defined.

(** C2 as stated fails in three ways: a short row makes the Extractor
    raise although the table body exists; the country is the text of the
    hyperlink, not of the whole first cell; and a superscript digit in the
    third cell is enough for a row to be kept. *)
Lemma extract_as_stated_counterexample :
  (extract (Samples.env_of (Samples.page Samples.rows_short) true) url table_attribs
   = Raise index_error /\
   ~ extract_as_stated (Samples.env_of (Samples.page Samples.rows_short) true)) /\
  (extract (Samples.env_of (Samples.page Samples.rows_note) true) url table_attribs
   = Ok [mkRaw "China" "19,373,586"] /\
   omap stated_row Samples.rows_note = [mkRaw "China[n 1]" "19,373,586"] /\
   ~ extract_as_stated (Samples.env_of (Samples.page Samples.rows_note) true)) /\
  (extract (Samples.env_of (Samples.page Samples.rows_superscript) true) url table_attribs
   = Ok [mkRaw "Nauru" Samples.superscript_two] /\
   omap stated_row Samples.rows_superscript = [] /\
   ~ extract_as_stated (Samples.env_of (Samples.page Samples.rows_superscript) true)).
Proof.
  repeat split; try reflexivity.
  - intros H.
    specialize (H "<html>" (Tag "tbody" Samples.rows_short) eq_refl eq_refl).
    vm_compute in H. discriminate.
  - intros H.
    specialize (H "<html>" (Tag "tbody" Samples.rows_note) eq_refl eq_refl).
    vm_compute in H. discriminate.
  - intros H.
    specialize (H "<html>" (Tag "tbody" Samples.rows_superscript) eq_refl eq_refl).
    vm_compute in H. discriminate.
Qed.

(** C10: when the third table body holds a row whose first data cell has
    a hyperlink and which has fewer than three data cells, the Extractor
    raises the out-of-range error; the row is not skipped. *)
Theorem extract_short_row_raises (E : env) (page : string) (tb row c0 a : node)
  (cols : list node) (i : nat) :
  requests_get E url = Ok page ->
  find_all "tbody" (BeautifulSoup E page) !! 2%nat = Some tb ->
  find_all "tr" tb !! i = Some row ->
  find_all "td" row = c0 :: cols ->
  find "a" c0 = Some a ->
  (length (c0 :: cols) < 3)%nat ->
  extract E url table_attribs = Raise (Exn IndexError "list index out of range").
Proof.
  intros Hp Htb Hrow Hcols Ha Hlen.
  rewrite (extract_spec E page Hp), Htb.
  assert (Hs : short_row row = true).
  { unfold short_row. rewrite Hcols, Ha. apply Nat.ltb_lt. simpl in Hlen. lia. }
  assert (Hex : existsb short_row (find_all "tr" tb) = true).
  { apply existsb_exists. exists row. split; [|done].
    apply list_elem_of_In. eapply list_elem_of_lookup_2, Hrow. }
  rewrite Hex. done.
Qed.

Lemma extract_short_row_raises_witness :
  extract (Samples.env_of (Samples.page Samples.rows_short) true) url table_attribs
  = Raise (Exn IndexError "list index out of range").
Proof.
  apply (extract_short_row_raises
           (Samples.env_of (Samples.page Samples.rows_short) true) "<html>"
           (Tag "tbody" Samples.rows_short)
           (Samples.tr [Samples.td [Samples.link "Kosovo"]])
           (Samples.td [Samples.link "Kosovo"]) (Samples.link "Kosovo") [] 1);
    try reflexivity.
  simpl. lia.
Defined.

Lemma omap_map_snd {B} (f : node -> option B) (l : list (list nat * node)) :
  omap f (map snd l) = omap (fun x => f (snd x)) l.
Proof.
  induction l as [|x l IH]; [done|].
  cbn [map]. change (omap f (snd x :: map snd l))
    with (match f (snd x) with
          | Some y => y :: omap f (map snd l)
          | None => omap f (map snd l)
          end).
  rewrite IH. done.
Qed.

Lemma clean_row_country (r : RawRow) (c : CleanRow) :
  clean_row r = Some c -> country c = Country r.
Proof.
  unfold clean_row. destruct (parse_number _); [|done]. intros [= <-]. done.
Qed.

Lemma clean_rows_sublist (df : list RawRow) :
  map country (omap clean_row df) `sublist_of` map Country df.
Proof.
  induction df as [|r df IH]; simpl; [constructor|].
  destruct (clean_row r) as [c|] eqn:Hc; simpl.
  - rewrite (clean_row_country r c Hc). apply sublist_skip, IH.
  - apply sublist_cons, IH.
Qed.

(** C6: the RawRow Table is made of rows of the third table body taken in
    document order (the places of the [tr] elements it comes from
    increase), and the CleanRow Table is the RawRow Table converted row by
    row, the unconvertible rows left out and the others in the same
    order. *)
Theorem order_preserved (E : env) (page : string) (tb : node)
  (df : list RawRow) (out : list CleanRow) :
  requests_get E url = Ok page ->
  find_all "tbody" (BeautifulSoup E page) !! 2%nat = Some tb ->
  extract E url table_attribs = Ok df ->
  transform df = Ok out ->
  exists places : list (list nat * node),
    StronglySorted in_document_order places /\
    Forall (fun x => node_at tb (fst x) = Some (snd x) /\ is_tag "tr" (snd x) = true)
           places /\
    df = omap (fun x => kept_row (snd x)) places /\
    out = omap clean_row df /\
    map country out `sublist_of` map Country df.
Proof.
  intros Hp Htb He Ht.
  rewrite (extract_spec E page Hp), Htb in He.
  destruct (existsb short_row _); [done|]. injection He as <-.
  rewrite transform_rows in Ht. injection Ht as <-.
  destruct (find_all_at_spec "tr" tb) as [Hsorted Hat].
  exists (find_all_at "tr" tb). split; [done|]. split; [done|].
  split; [|split; [done | apply clean_rows_sublist]].
  rewrite <- omap_map_snd, find_all_at_nodes. done.
Qed.

Lemma order_preserved_witness :
  exists places : list (list nat * node),
    StronglySorted in_document_order places /\
    Forall (fun x => node_at (Tag "tbody" Samples.rows_plain) (fst x) = Some (snd x) /\
                     is_tag "tr" (snd x) = true)
           places /\
    [mkRaw "France" "2,923,489"; mkRaw "Japan" "4,409,738"]
    = omap (fun x => kept_row (snd x)) places /\
    [mkClean "France" (Num 2923.49); mkClean "Japan" (Num 4409.74)]
    = omap clean_row [mkRaw "France" "2,923,489"; mkRaw "Japan" "4,409,738"] /\
    map country [mkClean "France" (Num 2923.49); mkClean "Japan" (Num 4409.74)]
    `sublist_of` map Country [mkRaw "France" "2,923,489"; mkRaw "Japan" "4,409,738"].
Proof.
  apply (order_preserved (Samples.env_of (Samples.page Samples.rows_plain) true)
           "<html>" (Tag "tbody" Samples.rows_plain));
    reflexivity.
Defined.


(** ** Orchestration *)

(** Opens the script into its three blocks. *)
Ltac unfold_script := unfold main, try_finally, try_except.

(** Opens a sequence of statements of the state and exception monad. *)
Ltac unfold_bind := unfold mbind, M_bind.

Lemma log_progress_ok (E : env) (inp : string) (w : world) :
  can_open E log_file = true ->
  log_progress E inp w = (Ok tt, append_log (log_line E w inp) (tick w)).
Proof. unfold log_progress. intros ->. done. Qed.

Lemma log_progress_fails (E : env) (inp : string) (w : world) :
  can_open E log_file = false ->
  log_progress E inp w = (Raise (open_error log_file), tick w).
Proof. unfold log_progress. intros ->. done. Qed.

Lemma log_progress_inv (E : env) (inp : string) (w w1 : world) :
  log_progress E inp w = (Ok tt, w1) -> can_open E log_file = true.
Proof. unfold log_progress. destruct (can_open E log_file); done. Qed.

(** The [finally] block never raises; it closes [conn] when the name is
    bound and changes nothing when it is not. *)
Lemma finally_block_spec (w : world) :
  finally_block w =
  (Ok tt, match conn w with
          | Some _ => bind_conn (Some conn_closed) w
          | None => w
          end).
Proof.
  unfold finally_block, try_except, conn_close, get_conn, mbind, M_bind.
  destruct (conn w); done.
Qed.

(** When [extract] raises, the [try] block ends with that exception right
    after its first log entry. *)
Lemma pipeline_extract_raises (E : env) (w : world) (e : exn) :
  can_open E log_file = true ->
  extract E url table_attribs = Raise e ->
  pipeline E w =
  (Raise e,
   append_log (log_line E w "Preliminaries complete. Initiating ETL process.") (tick w)).
Proof.
  intros Hl He. unfold pipeline. unfold_bind.
  rewrite log_progress_ok by done. unfold lift. rewrite He. done.
Qed.

Lemma handler_ok (E : env) (e : exn) (w : world) :
  can_open E log_file = true ->
  handler E e w =
  (Ok tt, print_err ("ERROR: " +:+ exn_msg e)
            (append_log (log_line E w ("ERROR: " +:+ exn_msg e)) (tick w))).
Proof.
  intros Hl. unfold handler. unfold_bind.
  rewrite log_progress_ok by done. done.
Qed.

(** With a writable log file no run ends with an uncaught exception. *)
Lemma main_ok_when_log_writable (E : env) (w : world) :
  can_open E log_file = true -> exists w', main E w = (Ok tt, w').
Proof.
  intros Hl. unfold_script.
  destruct (pipeline E w) as [[[]|e] w1].
  - rewrite finally_block_spec. eauto.
  - rewrite handler_ok by done. rewrite finally_block_spec. eauto.
Qed.

(** C4: when the page has fewer than three table bodies, the Extractor
    raises the out-of-range error; in a run that reaches the Extractor the
    [try] block ends with that same exception, the top-level handler runs
    on it, reports it on standard error, and the run ends normally. *)
Theorem extract_missing_tbody (E : env) (page : string) :
  requests_get E url = Ok page ->
  (length (find_all "tbody" (BeautifulSoup E page)) <= 2)%nat ->
  extract E url table_attribs = Raise index_error /\
  forall w, can_open E log_file = true ->
    exists w1 w2,
      pipeline E w = (Raise index_error, w1) /\
      try_except (pipeline E) (handler E) w = handler E index_error w1 /\
      main E w = (Ok tt, w2) /\
      stderr w2 = stderr w ++ ["ERROR: list index out of range"].
Proof.
  intros Hp Hlen.
  assert (He : extract E url table_attribs = Raise index_error).
  { rewrite (extract_spec E page Hp).
    rewrite (lookup_ge_None_2 _ 2%nat); [done | lia]. }
  split; [done|]. intros w Hl.
  pose proof (pipeline_extract_raises E w _ Hl He) as Hpipe.
  eexists _, _. split; [exact Hpipe|].
  split; [unfold try_except; rewrite Hpipe; done|].
  unfold_script. rewrite Hpipe.
  rewrite handler_ok by done. rewrite finally_block_spec.
  split; [reflexivity|]. simpl. destruct (conn w); done.
Qed.

Lemma extract_missing_tbody_witness :
  extract (Samples.env_of Samples.page_two_tables true) url table_attribs
  = Raise index_error /\
  forall w, can_open (Samples.env_of Samples.page_two_tables true) log_file = true ->
    exists w1 w2,
      pipeline (Samples.env_of Samples.page_two_tables true) w = (Raise index_error, w1) /\
      try_except (pipeline (Samples.env_of Samples.page_two_tables true))
                 (handler (Samples.env_of Samples.page_two_tables true)) w
      = handler (Samples.env_of Samples.page_two_tables true) index_error w1 /\
      main (Samples.env_of Samples.page_two_tables true) w = (Ok tt, w2) /\
      stderr w2 = stderr w ++ ["ERROR: list index out of range"].
Proof.
  apply (extract_missing_tbody (Samples.env_of Samples.page_two_tables true) "<html>").
  - reflexivity.
  - vm_compute. lia.
Defined.

(** C8: in a run from a fresh interpreter whose Extraction stage raises
    [e], the log gains two lines: the one written before the stage and the
    handler's, whose message is "ERROR: " followed by the text of [e];
    [conn] is still unbound when the [finally] block starts, the block
    changes nothing and raises nothing, and the run ends normally with no
    file or table written. *)
Theorem extraction_failure_logged (E : env) (log : list string)
  (csvs : gmap string (list string * list CleanRow))
  (db : gmap string (list CleanRow)) (e : exn) :
  extraction_raises E (boot log csvs db) e ->
  exists w1 : world,
    try_except (pipeline E) (handler E) (boot log csvs db) = (Ok tt, w1) /\
    log_lines w1 =
      log ++ [now_strftime E "%Y-%b-%d-%H:%M:%S" 0
                +:+ " : Preliminaries complete. Initiating ETL process." +:+ newline;
              now_strftime E "%Y-%b-%d-%H:%M:%S" 1
                +:+ " : " +:+ ("ERROR: " +:+ exn_msg e) +:+ newline] /\
    conn w1 = None /\
    finally_block w1 = (Ok tt, w1) /\
    main E (boot log csvs db) = (Ok tt, w1) /\
    csv_files w1 = csvs /\ database w1 = db.
Proof.
  intros (w0 & Hlog & He). apply log_progress_inv in Hlog as Hl.
  pose proof (pipeline_extract_raises E (boot log csvs db) e Hl He) as Hpipe.
  assert (Hrun : try_except (pipeline E) (handler E) (boot log csvs db) =
                 handler E e (append_log
                   (log_line E (boot log csvs db)
                      "Preliminaries complete. Initiating ETL process.")
                   (tick (boot log csvs db)))).
  { unfold try_except. rewrite Hpipe. done. }
  rewrite handler_ok in Hrun by done.
  eexists. split; [exact Hrun|].
  split; [simpl; rewrite <- app_assoc; reflexivity|].
  split; [reflexivity|].
  split; [rewrite finally_block_spec; reflexivity|].
  split; [|done].
  unfold main, try_finally. rewrite Hrun, finally_block_spec. done.
Qed.

Lemma extraction_failure_logged_witness :
  extraction_raises (Samples.env_of Samples.page_two_tables true) Samples.fresh index_error /\
  exists w1 : world,
    try_except (pipeline (Samples.env_of Samples.page_two_tables true))
               (handler (Samples.env_of Samples.page_two_tables true)) Samples.fresh
    = (Ok tt, w1) /\
    log_lines w1 =
      [] ++ ["2023-Sep-02-18:53:26"
               +:+ " : Preliminaries complete. Initiating ETL process." +:+ newline;
             "2023-Sep-02-18:53:26"
               +:+ " : " +:+ ("ERROR: " +:+ exn_msg index_error) +:+ newline] /\
    conn w1 = None /\
    finally_block w1 = (Ok tt, w1) /\
    main (Samples.env_of Samples.page_two_tables true) Samples.fresh = (Ok tt, w1) /\
    csv_files w1 = ∅ /\ database w1 = ∅.
Proof.
  assert (H : extraction_raises (Samples.env_of Samples.page_two_tables true)
                Samples.fresh index_error).
  { eexists. split; reflexivity. }
  split; [exact H|].
  exact (extraction_failure_logged _ [] ∅ ∅ index_error H).
Defined.

(** C9, as amended: the Logger does not absorb its own failures. When the
    log file cannot be written, the first logging call raises inside the
    [try] block, the logging call of the top-level handler raises again,
    and the run ends with that exception uncaught; no stage has run:
    nothing is logged, printed or stored. *)
Theorem logger_failure_aborts (E : env) (w : world) :
  can_open E log_file = false ->
  exists w',
    main E w = (Raise (open_error log_file), w') /\
    log_lines w' = log_lines w /\ csv_files w' = csv_files w /\
    database w' = database w /\ stdout w' = stdout w /\ stderr w' = stderr w.
Proof.
  intros Hl. unfold_script.
  assert (Hpipe : pipeline E w =
                  (Raise (open_error log_file), tick w)).
  { unfold pipeline. unfold_bind. rewrite log_progress_fails by done. done. }
  rewrite Hpipe. unfold handler. unfold_bind.
  rewrite log_progress_fails by done. rewrite finally_block_spec.
  eexists. split; [reflexivity|]. simpl. destruct (conn w); done.
Qed.

Lemma logger_failure_aborts_witness :
  exists w',
    main (Samples.env_of (Samples.page Samples.rows_plain) false) Samples.fresh
    = (Raise (open_error log_file), w') /\
    log_lines w' = log_lines Samples.fresh /\ csv_files w' = csv_files Samples.fresh /\
    database w' = database Samples.fresh /\ stdout w' = stdout Samples.fresh /\
    stderr w' = stderr Samples.fresh.
Proof.
  apply (logger_failure_aborts
           (Samples.env_of (Samples.page Samples.rows_plain) false) Samples.fresh).
  reflexivity.
Defined.

(** C9 as stated fails: with an unwritable log file the run on a
    well-formed page ends with the exception of the Logger. *)
Lemma logger_never_aborts_counterexample :
  main (Samples.env_of (Samples.page Samples.rows_plain) false) Samples.fresh
  = (Raise (open_error log_file), tick (tick Samples.fresh)) /\
  ~ logger_never_aborts.
Proof.
  split; [reflexivity|]. intros H.
  destruct (H (Samples.env_of (Samples.page Samples.rows_plain) false) Samples.fresh)
    as [w' Hw'].
  vm_compute in Hw'. discriminate.
Qed.

(** ** Sink *)

Lemma words_query_statement :
  words query_statement =
  ["SELECT"; "*"; "FROM"; table_name; "WHERE"; "GDP_USD_billions"; ">="; "100"].
Proof. reflexivity. Qed.

(** The top-level query returns the rows of the stored table whose value
    is at least 100, in stored order. *)
Lemma read_sql_top_level (w : world) (rows : list CleanRow) :
  database w !! table_name = Some rows ->
  read_sql query_statement conn_open w =
  (Ok (List.filter (fun r => float_ge (GDP_USD_billions r) 100) rows), w).
Proof.
  intros Hdb. unfold read_sql. rewrite words_query_statement.
  change (parse_number "100") with (Some 100%Q). rewrite Hdb. done.
Qed.

(** C7: with (A, 150.0), (B, 99.9), (C, 100.0) loaded into the relational
    table, the top-level query prints its text and then exactly the rows
    of A and C: the comparison includes 100.0. *)
Theorem query_scenario (w : world) :
  (load_to_db [mkClean "A" (Num 150.0); mkClean "B" (Num 99.9); mkClean "C" (Num 100.0)]
              conn_open table_name;;
   run_query query_statement conn_open) w =
  (Ok tt,
   print_out (PrintFrame [mkClean "A" (Num 150.0); mkClean "C" (Num 100.0)])
     (print_out (PrintText query_statement)
        (write_table table_name
           [mkClean "A" (Num 150.0); mkClean "B" (Num 99.9); mkClean "C" (Num 100.0)]
           w))).
Proof.
  unfold load_to_db, run_query, mbind, M_bind, modify.
  rewrite (read_sql_top_level _
             [mkClean "A" (Num 150.0); mkClean "B" (Num 99.9); mkClean "C" (Num 100.0)]).
  - reflexivity.
  - simpl. apply lookup_insert_eq.
Qed.



(** * Further properties *)

(** ** Transformer *)

Lemma transform_skip (pre post : list RawRow) (r : RawRow) :
  clean_row r = None ->
  transform (pre ++ r :: post) = transform (pre ++ post).
Proof.
  intros Hr. rewrite !transform_rows, !omap_app. simpl. rewrite Hr. done.
Qed.

Lemma transform_same (pre post : list RawRow) (r r' : RawRow) :
  clean_row r = clean_row r' ->
  transform (pre ++ r :: post) = transform (pre ++ r' :: post).
Proof.
  intros Hr. rewrite !transform_rows, !omap_app. simpl. rewrite Hr. done.
Qed.

(** X1: a row whose stripped GDP text reads as a number and has at most
    15 characters (every such figure is held exactly by float64) gives
    exactly one row of the output, at its place, with the same country and
    with that number divided by 1000 and rounded to a whole number of
    hundredths at most 0.005 away. *)
Theorem transform_value_formula (pre post : list RawRow) (r : RawRow) (x : Q) :
  parse_number (replace_non_numeric (GDP_USD_millions r)) = Some x ->
  (String.length (replace_non_numeric (GDP_USD_millions r)) <= 15)%nat ->
  exists (out_pre out_post : list CleanRow) (v : Q),
    transform pre = Ok out_pre /\ transform post = Ok out_post /\
    transform (pre ++ r :: post)
    = Ok (out_pre ++ mkClean (Country r) (Num v) :: out_post) /\
    rounded_2dp (x / 1000) v.
Proof.
  intros Hp Hlen.
  assert (Hb : (x < float64_overflow)%Q).
  { apply parse_number_bound in Hp as Hx.
    eapply Qlt_le_trans; [exact Hx|].
    apply Qle_trans with (inject_Z (10 ^ 15)).
    - rewrite <- Zle_Qle. apply Z.pow_le_mono_r; lia.
    - apply Qle_trans with (inject_Z (10 ^ 308)).
      + rewrite <- Zle_Qle. vm_compute. discriminate.
      + apply float64_overflow_bounds. }
  assert (Hc : exists v, clean_row r = Some (mkClean (Country r) (Num v)) /\
                         rounded_2dp (x / 1000) v).
  { unfold clean_row. rewrite Hp.
    apply parse_number_digit in Hp as [_ Hx].
    destruct (to_float64_cases x) as [[_ Hge]|[-> _]].
    { exfalso. apply (Qlt_not_le _ _ Hb Hge). }
    destruct (float_round_2dp x Hx Hb) as (v & -> & Hr & _). eauto. }
  destruct Hc as (v & Hc & Hr).
  exists (omap clean_row pre), (omap clean_row post), v.
  rewrite !transform_rows, omap_app. simpl. rewrite Hc. done.
Qed.

Lemma transform_value_formula_witness :
  exists (out_pre out_post : list CleanRow) (v : Q),
    transform [mkRaw "Tuvalu" "-"] = Ok out_pre /\
    transform [mkRaw "France" "2,923,489"] = Ok out_post /\
    transform ([mkRaw "Tuvalu" "-"] ++ mkRaw "Japan" "4,409,738"
                 :: [mkRaw "France" "2,923,489"])
    = Ok (out_pre ++ mkClean (Country (mkRaw "Japan" "4,409,738")) (Num v)
            :: out_post) /\
    rounded_2dp (4409738 / 1000) v.
Proof.
  apply (transform_value_formula [mkRaw "Tuvalu" "-"] [mkRaw "France" "2,923,489"]
           (mkRaw "Japan" "4,409,738") 4409738).
  - reflexivity.
  - vm_compute. lia.
Defined.

(** X2: the Transformer works row by row: the result for two Tables put
    end to end is the two results put end to end, and it never raises. *)
Theorem transform_app (a b : list RawRow) :
  exists oa ob : list CleanRow,
    transform a = Ok oa /\ transform b = Ok ob /\
    transform (a ++ b) = Ok (oa ++ ob).
Proof.
  exists (omap clean_row a), (omap clean_row b).
  rewrite !transform_rows, omap_app. done.
Qed.

Lemma re_digit_not_period (c : ascii) :
  re_digit c = true -> Ascii.eqb c "." = false.
Proof.
  intros H. destruct (Ascii.eqb_spec c "."%char) as [-> |]; [|done].
  vm_compute in H. discriminate.
Qed.

Lemma scan_digits_periods (s : string) :
  forall acc n m n' r,
    scan_digits s acc n = (m, n', r) ->
    count_char "." s = count_char "." r.
Proof.
  induction s as [|c s IH]; simpl; intros acc n m n' r H.
  - inversion H. done.
  - destruct (re_digit c) eqn:Hc.
    + rewrite (re_digit_not_period c Hc). simpl. eapply IH, H.
    + inversion H. done.
Qed.

(** Text that parses holds at most one period. *)
Lemma parse_number_periods (s : string) (x : Q) :
  parse_number s = Some x -> (count_char "." s <= 1)%nat.
Proof.
  unfold parse_number.
  destruct (scan_digits s 0 0) as [[m1 n1] r1] eqn:H1.
  apply scan_digits_periods in H1. rewrite H1.
  destruct r1 as [|c r]; [simpl; lia|].
  simpl. destruct (Ascii.eqb c ".").
  - destruct (scan_digits r m1 0) as [[m2 n2] r2] eqn:H2.
    apply scan_digits_periods in H2. rewrite H2.
    destruct (n1 + n2 =? 0)%nat; [done|]. destruct r2; [|done].
    intros _. simpl. lia.
  - destruct (n1 + 0 =? 0)%nat; done.
Qed.

Lemma count_char_filter (p : ascii -> bool) (c : ascii) (s : string) :
  p c = true -> count_char c (str_filter p s) = count_char c s.
Proof.
  intros Hc. induction s as [|a r IH]; simpl; [done|].
  destruct (p a) eqn:Ha; simpl; rewrite IH; [done|].
  destruct (Ascii.eqb_spec a c) as [-> |]; [congruence | done].
Qed.

Lemma str_filter_app (p : ascii -> bool) (a b : string) :
  str_filter p (a +:+ b) = str_filter p a +:+ str_filter p b.
Proof.
  induction a as [|c a IH]; simpl; [done|].
  destruct (p c); simpl; rewrite IH; done.
Qed.

(** X3: a row whose GDP text holds two or more periods, as a number with
    periods for thousands separators does, is dropped: the output is that
    of the Table without the row. *)
Theorem transform_drops_two_periods (pre post : list RawRow) (r : RawRow) :
  (2 <= count_char "." (GDP_USD_millions r))%nat ->
  transform (pre ++ r :: post) = transform (pre ++ post).
Proof.
  intros H. apply transform_skip. unfold clean_row.
  destruct (parse_number _) as [x|] eqn:Hp; [|done].
  apply parse_number_periods in Hp.
  unfold replace_non_numeric in Hp. rewrite count_char_filter in Hp by done.
  lia.
Qed.

Lemma transform_drops_two_periods_witness :
  (2 <= count_char "." (GDP_USD_millions (mkRaw "Italy" "2.169.745")))%nat /\
  transform ([mkRaw "France" "2,923,489"] ++ mkRaw "Italy" "2.169.745" :: [])
  = transform ([mkRaw "France" "2,923,489"] ++ []).
Proof.
  split; [vm_compute; lia|].
  apply (transform_drops_two_periods [mkRaw "France" "2,923,489"] []
           (mkRaw "Italy" "2.169.745")).
  vm_compute. lia.
Defined.

(** X4: a character that is neither a decimal digit nor a period has no
    influence on the result, wherever it stands in the GDP text: a sign, a
    blank, a separator or a bracket can be taken out of a row without
    changing what the Transformer returns. *)
Theorem transform_ignores_other_characters (pre post : list RawRow)
  (c s1 s2 : string) (ch : ascii) :
  re_digit ch = false ->
  Ascii.eqb ch "." = false ->
  transform (pre ++ mkRaw c (s1 +:+ String ch s2) :: post)
  = transform (pre ++ mkRaw c (s1 +:+ s2) :: post).
Proof.
  intros Hd Hp. apply transform_same. unfold clean_row. simpl.
  unfold replace_non_numeric. rewrite !str_filter_app. simpl.
  rewrite Hd, Hp. done.
Qed.

Lemma transform_ignores_other_characters_witness :
  (re_digit "-" = false /\ Ascii.eqb "-" "." = false) /\
  transform ([] ++ mkRaw "Japan" ("" +:+ String "-" "4,409,738") :: [])
  = transform ([] ++ mkRaw "Japan" ("" +:+ "4,409,738") :: []).
Proof.
  split; [split; reflexivity|].
  apply (transform_ignores_other_characters [] [] "Japan" "" "4,409,738" "-");
    reflexivity.
Defined.

(** ** Extractor *)

Lemma extract_ok_inv (E : env) (df : list RawRow) :
  extract E url table_attribs = Ok df ->
  exists page tb,
    requests_get E url = Ok page /\
    find_all "tbody" (BeautifulSoup E page) !! 2%nat = Some tb /\
    existsb short_row (find_all "tr" tb) = false /\
    df = omap kept_row (find_all "tr" tb).
Proof.
  intros H. destruct (requests_get E url) as [page|e] eqn:Hp.
  - rewrite (extract_spec E page Hp) in H.
    destruct (_ !! _) as [tb|] eqn:Htb; [|done].
    destruct (existsb short_row _) eqn:Hs; [done|].
    injection H as <-. exists page, tb. done.
  - unfold extract in H. rewrite Hp in H. done.
Qed.

Lemma kept_row_inv (row : node) (r : RawRow) :
  kept_row row = Some r ->
  exists a c2 : node,
    Country r = get_text a /\ GDP_USD_millions r = get_text c2 /\
    str_any isdigit (get_text c2) = true.
Proof.
  unfold kept_row. destruct (find_all "td" row) as [|c0 cols]; [done|].
  destruct (find "a" c0) as [a|]; [|done].
  destruct (_ !! _) as [c2|]; [|done].
  destruct (str_any isdigit (get_text c2)) eqn:Hd; [|done].
  intros [= <-]. eauto.
Qed.

(** X5: every row of the Table the Extractor returns has a GDP text with
    at least one character that [str.isdigit] accepts; a row whose third
    cell has none never gets into the Table. *)
Theorem extract_rows_have_digit (E : env) (df : list RawRow) (i : nat)
  (r : RawRow) :
  extract E url table_attribs = Ok df ->
  df !! i = Some r ->
  str_any isdigit (GDP_USD_millions r) = true.
Proof.
  intros (page & tb & _ & _ & _ & ->)%extract_ok_inv Hi.
  apply list_elem_of_lookup_2, list_elem_of_omap in Hi as (row & _ & Hk).
  apply kept_row_inv in Hk as (a & c2 & _ & -> & Hd). done.
Qed.

Lemma extract_rows_have_digit_witness :
  str_any isdigit (GDP_USD_millions (mkRaw "Japan" "4,409,738")) = true.
Proof.
  apply (extract_rows_have_digit
           (Samples.env_of (Samples.page Samples.rows_plain) true)
           [mkRaw "France" "2,923,489"; mkRaw "Japan" "4,409,738"] 1
           (mkRaw "Japan" "4,409,738"));
    reflexivity.
Defined.

(** *** Stripped text *)

Lemma lstrip_no_lead (s : string) : starts_with_space (lstrip s) = false.
Proof.
  induction s as [|c r IH]; simpl; [done|].
  destruct (isspace c) eqn:Hc; [done|]. simpl. done.
Qed.

Lemma rstrip_no_trail (s : string) : ends_with_space (rstrip s) = false.
Proof.
  induction s as [|c r IH]; simpl; [done|].
  destruct (rstrip r) as [|c' r'].
  - destruct (isspace c) eqn:Hc; simpl; done.
  - exact IH.
Qed.

Lemma rstrip_keeps_head (s : string) :
  starts_with_space s = false -> starts_with_space (rstrip s) = false.
Proof.
  destruct s as [|c r]; simpl; [done|]. intros Hc.
  destruct (rstrip r); [rewrite Hc|]; simpl; done.
Qed.

Lemma lstrip_id (s : string) : starts_with_space s = false -> lstrip s = s.
Proof. destruct s as [|c r]; simpl; [done|]. intros ->. done. Qed.

Lemma rstrip_id (s : string) : ends_with_space s = false -> rstrip s = s.
Proof.
  induction s as [|c r IH]; [done|]. destruct r as [|c' r'].
  - simpl. intros ->. done.
  - intros H. change (ends_with_space (String c' r') = false) in H.
    change (rstrip (String c (String c' r')))
      with (match rstrip (String c' r') with
            | EmptyString => if isspace c then EmptyString else String c EmptyString
            | String _ _ as t => String c t
            end).
    rewrite (IH H). done.
Qed.

(** Text without a blank at either end is what [strip] leaves alone, and
    [strip] always yields such text. *)
Lemma strip_id (s : string) :
  starts_with_space s = false -> ends_with_space s = false -> strip s = s.
Proof. intros H1 H2. unfold strip. rewrite (lstrip_id s H1). apply rstrip_id, H2. Qed.

Lemma strip_trimmed (s : string) :
  starts_with_space (strip s) = false /\ ends_with_space (strip s) = false.
Proof.
  unfold strip. split.
  - apply rstrip_keeps_head, lstrip_no_lead.
  - apply rstrip_no_trail.
Qed.

Lemma append_starts (a b : string) :
  is_empty a = false -> starts_with_space (a +:+ b) = starts_with_space a.
Proof. destruct a; done. Qed.

Lemma append_ends (a b : string) :
  is_empty b = false -> ends_with_space (a +:+ b) = ends_with_space b.
Proof.
  intros Hb. induction a as [|c a IH]; [done|].
  simpl. rewrite IH. destruct (a +:+ b) eqn:Hab; [|done].
  destruct a; destruct b; done.
Qed.

Lemma append_nonempty (a b : string) :
  is_empty a = false -> is_empty (a +:+ b) = false.
Proof. destruct a; done. Qed.

(** Joining non-empty fragments that have no blank at either end gives
    text with no blank at either end. *)
Lemma concat_trimmed (l : list string) :
  Forall (fun f => is_empty f = false /\
                   starts_with_space f = false /\ ends_with_space f = false) l ->
  starts_with_space (String.concat "" l) = false /\
  ends_with_space (String.concat "" l) = false /\
  (l <> [] -> is_empty (String.concat "" l) = false).
Proof.
  induction 1 as [|f l (Hne & Hs & He) Hl IH]; [done|].
  destruct l as [|g l].
  - simpl. done.
  - destruct IH as (IHs & IHe & IHn). specialize (IHn ltac:(done)).
    change (String.concat "" (f :: g :: l))
      with (f +:+ String.concat "" (g :: l)).
    rewrite append_starts, append_ends, append_nonempty by done. done.
Qed.

Lemma stripped_strings_trimmed (n : node) :
  Forall (fun f => is_empty f = false /\
                   starts_with_space f = false /\ ends_with_space f = false)
         (stripped_strings n).
Proof.
  apply Forall_forall. intros f Hf. unfold stripped_strings in Hf.
  apply list_elem_of_omap in Hf as (d & _ & Hd).
  destruct d as [s| |]; [|done..].
  destruct (is_empty (strip s)) eqn:Hne; [done|]. injection Hd as <-.
  destruct (strip_trimmed s). done.
Qed.

(** [get_text(strip=True)] never starts or ends with a blank. *)
Lemma get_text_stripped (n : node) : strip (get_text n) = get_text n.
Proof.
  destruct (concat_trimmed _ (stripped_strings_trimmed n)) as (Hs & He & _).
  apply strip_id; done.
Qed.

(** X6: the country and the GDP text of every row the Extractor returns
    carry no blank at either end: stripping them again changes nothing. *)
Theorem extract_rows_stripped (E : env) (df : list RawRow) (i : nat)
  (r : RawRow) :
  extract E url table_attribs = Ok df ->
  df !! i = Some r ->
  strip (Country r) = Country r /\
  strip (GDP_USD_millions r) = GDP_USD_millions r.
Proof.
  intros (page & tb & _ & _ & _ & ->)%extract_ok_inv Hi.
  apply list_elem_of_lookup_2, list_elem_of_omap in Hi as (row & _ & Hk).
  apply kept_row_inv in Hk as (a & c2 & -> & -> & _).
  split; apply get_text_stripped.
Qed.

Lemma extract_rows_stripped_witness :
  strip (Country (mkRaw "France" "2,923,489")) = Country (mkRaw "France" "2,923,489") /\
  strip (GDP_USD_millions (mkRaw "France" "2,923,489"))
  = GDP_USD_millions (mkRaw "France" "2,923,489").
Proof.
  apply (extract_rows_stripped
           (Samples.env_of (Samples.page Samples.rows_plain) true)
           [mkRaw "France" "2,923,489"; mkRaw "Japan" "4,409,738"] 0
           (mkRaw "France" "2,923,489"));
    reflexivity.
Defined.

(** ** Sink *)

(** Goes down a tree of case distinctions whose leaves all pair a result
    with the same state. *)
Ltac walk_match :=
  repeat (lazymatch goal with
          | |- snd (match ?x with _ => _ end) = _ => destruct x
          end; try reflexivity).

(** Reading from the database changes nothing. *)
Lemma read_sql_world (q : string) (c : connection) (w : world) :
  snd (read_sql q c w) = w.
Proof. unfold read_sql. destruct c; [|done]. walk_match. Qed.

(** X8: loading a frame replaces the table of that name: after two loads
    into one table only the second frame is there, and no other table is
    touched. *)
Theorem load_to_db_replaces (df1 df2 : list CleanRow) (t : string) (w : world) :
  (load_to_db df1 conn_open t;; load_to_db df2 conn_open t) w
  = load_to_db df2 conn_open t w /\
  database (snd (load_to_db df2 conn_open t w)) !! t = Some df2 /\
  forall t', t' <> t ->
    database (snd (load_to_db df2 conn_open t w)) !! t' = database w !! t'.
Proof.
  unfold load_to_db, mbind, M_bind, modify, write_table. simpl.
  split; [|split].
  - rewrite insert_insert_eq. done.
  - apply lookup_insert_eq.
  - intros t' Ht. apply lookup_insert_ne. done.
Qed.

(** X9: whatever frame is loaded into the table, the top-level query
    prints its own text and then the rows of that frame whose value is at
    least 100, in the order of the frame. *)
Theorem load_then_query (df : list CleanRow) (w : world) :
  (load_to_db df conn_open table_name;;
   run_query query_statement conn_open) w =
  (Ok tt,
   print_out (PrintFrame (at_least_100 df))
     (print_out (PrintText query_statement) (write_table table_name df w))).
Proof.
  unfold load_to_db, run_query, mbind, M_bind, modify.
  rewrite (read_sql_top_level _ df); [done|].
  simpl. apply lookup_insert_eq.
Qed.

(** X10: [run_query] prints the statement before it runs it: standard
    output gains the statement and the resulting frame when the query
    succeeds, and the statement alone when the query raises. *)
Theorem run_query_prints_first (q : string) (c : connection) (w : world) :
  match run_query q c w with
  | (Ok _, w') => exists rows, stdout w' = stdout w ++ [PrintText q; PrintFrame rows]
  | (Raise _, w') => stdout w' = stdout w ++ [PrintText q]
  end.
Proof.
  unfold run_query, mbind, M_bind, modify.
  pose proof (read_sql_world q c (print_out (PrintText q) w)) as Hw.
  destruct (read_sql q c (print_out (PrintText q) w)) as [[rows|e] w1];
    simpl in Hw; subst w1; simpl.
  - exists rows. rewrite <- app_assoc. done.
  - done.
Qed.

(** ** Orchestration *)

Lemma load_to_csv_ok (E : env) (df : list CleanRow) (w : world) :
  can_open E csv_path = true ->
  load_to_csv E df csv_path w
  = (Ok tt, write_csv csv_path (["Country"; "GDP_USD_billions"], df) w).
Proof. unfold load_to_csv. intros ->. done. Qed.

Lemma load_to_csv_fails (E : env) (df : list CleanRow) (w : world) :
  can_open E csv_path = false ->
  load_to_csv E df csv_path w = (Raise (open_error csv_path), w).
Proof. unfold load_to_csv. intros ->. done. Qed.

(** *** One statement at a time *)

Lemma bind_ok {A B} (m : M A) (f : A -> M B) (w w' : world) (a : A) :
  m w = (Ok a, w') -> (m ≫= f) w = f a w'.
Proof. intros H. unfold mbind, M_bind. rewrite H. done. Qed.

Lemma bind_raise {A B} (m : M A) (f : A -> M B) (w w' : world) (e : exn) :
  m w = (Raise e, w') -> (m ≫= f) w = (Raise e, w').
Proof. intros H. unfold mbind, M_bind. rewrite H. done. Qed.

Lemma log_step (E : env) (inp : string) l c d o e cn k :
  can_open E log_file = true ->
  log_progress E inp (mkWorld l c d o e cn k)
  = (Ok tt,
     mkWorld (l ++ [now_strftime E "%Y-%b-%d-%H:%M:%S" k +:+ " : " +:+ inp +:+ newline])
             c d o e cn (S k)).
Proof. unfold log_progress. intros ->. done. Qed.

Lemma csv_step (E : env) (df : list CleanRow) l c d o e cn k :
  can_open E csv_path = true ->
  load_to_csv E df csv_path (mkWorld l c d o e cn k)
  = (Ok tt,
     mkWorld l (<[csv_path := (["Country"; "GDP_USD_billions"], df)]> c) d o e cn k).
Proof. unfold load_to_csv. intros ->. done. Qed.


(** Runs the next statement of a sequence that is known to come back. *)
Ltac step_with tac := erewrite bind_ok; [|tac].
Ltac step_log := step_with ltac:(apply log_step; assumption).

(** The [try] block up to the point where the frame is ready to be stored:
    three log entries, nothing else. *)
Lemma pipeline_to_loading (E : env) (df : list RawRow)
  (rest : list CleanRow -> M unit) l c d o e cn k :
  can_open E log_file = true ->
  extract E url table_attribs = Ok df ->
  (log_progress E "Preliminaries complete. Initiating ETL process.";;
   df ← lift (extract E url table_attribs);
   log_progress E "Data extraction complete. Initiating transformation process.";;
   df ← lift (transform df);
   log_progress E "Data transformation complete. Initiating loading process.";;
   rest df) (mkWorld l c d o e cn k)
  = rest (omap clean_row df)
      (mkWorld (l ++ log_entries E k (take 3 stage_messages)) c d o e cn (3 + k)).
Proof.
  intros Hl He. step_log.
  step_with ltac:(unfold lift; rewrite He; reflexivity). step_log.
  step_with ltac:(unfold lift; rewrite transform_rows; reflexivity). step_log.
  f_equal. f_equal. rewrite <- !app_assoc. cbn.
  rewrite !Nat.add_0_r, !Nat.add_succ_r, !Nat.add_0_r. done.
Qed.




(** X12: no run leaves the connection open: when the script ends, with or
    without an uncaught exception, the name [conn] is unbound or bound to
    a closed connection. *)
Theorem connection_never_left_open (E : env) (w : world) :
  conn (snd (main E w)) = None \/ conn (snd (main E w)) = Some conn_closed.
Proof.
  unfold_script.
  assert (H : forall (r : result unit) (w1 : world),
             conn (snd (let '(r, w') := (r, w1) in
                        match finally_block w' with
                        | (Ok _, w'') => (r, w'')
                        | (Raise e, w'') => (Raise e, w'')
                        end)) = None \/
             conn (snd (let '(r, w') := (r, w1) in
                        match finally_block w' with
                        | (Ok _, w'') => (r, w'')
                        | (Raise e, w'') => (Raise e, w'')
                        end)) = Some conn_closed).
  { intros r w1. rewrite finally_block_spec. simpl.
    destruct (conn w1) eqn:Hc; simpl; auto. }
  destruct (pipeline E w) as [[[]|e] w1]; [apply H|].
  destruct (handler E e w1) as [r w2]. apply H.
Qed.

Lemma main_log_blocked (E : env) (w : world) :
  can_open E log_file = false ->
  fst (main E w) = Raise (open_error log_file).
Proof.
  intros Hl. unfold_script. unfold pipeline.
  erewrite (bind_raise (log_progress E _)) by (apply log_progress_fails; done).
  unfold handler.
  erewrite (bind_raise (log_progress E _)) by (apply log_progress_fails; done).
  rewrite finally_block_spec. done.
Qed.

(** X13: a run ends with an uncaught exception only through the Logger:
    when the script lets an exception out, the log file could not be
    opened and the exception is the one of that failure. *)
Theorem main_raises_only_log_failure (E : env) (w w' : world) (e : exn) :
  main E w = (Raise e, w') ->
  can_open E log_file = false /\ e = open_error log_file.
Proof.
  intros H. destruct (can_open E log_file) eqn:Hl.
  - destruct (main_ok_when_log_writable E w Hl) as [w2 Hw2]. congruence.
  - split; [done|]. pose proof (main_log_blocked E w Hl) as Hb.
    rewrite H in Hb. simpl in Hb. congruence.
Qed.

Lemma main_raises_only_log_failure_witness :
  can_open (Samples.env_of MoreSamples.plain_page false) log_file = false /\
  open_error log_file = open_error log_file.
Proof.
  apply (main_raises_only_log_failure
           (Samples.env_of MoreSamples.plain_page false) Samples.fresh
           (tick (tick Samples.fresh)) (open_error log_file)).
  reflexivity.
Defined.

(** *** What a run leaves alone *)

Lemma extends_refl (w : world) : extends w w.
Proof. unfold extends. repeat split; done. Qed.

Lemma extends_trans (w1 w2 w3 : world) :
  extends w1 w2 -> extends w2 w3 -> extends w1 w3.
Proof.
  intros (Hl1 & Ho1 & He1 & Hc1 & Hd1) (Hl2 & Ho2 & He2 & Hc2 & Hd2).
  unfold extends. repeat split.
  - etrans; done.
  - etrans; done.
  - etrans; done.
  - intros path Hp. rewrite Hc2, Hc1; done.
  - intros t Ht. rewrite Hd2, Hd1; done.
Qed.

Lemma extends_tick (w : world) : extends w (tick w).
Proof. unfold extends. simpl. repeat split; done. Qed.

Lemma extends_append_log (line : string) (w : world) :
  extends w (append_log line w).
Proof. unfold extends. simpl. repeat split; try done. by exists [line]. Qed.

Lemma extends_print_out (x : printed) (w : world) : extends w (print_out x w).
Proof. unfold extends. simpl. repeat split; try done. by exists [x]. Qed.

Lemma extends_print_err (s : string) (w : world) : extends w (print_err s w).
Proof. unfold extends. simpl. repeat split; try done. by exists [s]. Qed.

Lemma extends_bind_conn (c : option connection) (w : world) :
  extends w (bind_conn c w).
Proof. unfold extends. simpl. repeat split; done. Qed.

Lemma extends_write_csv (f : list string * list CleanRow) (w : world) :
  extends w (write_csv csv_path f w).
Proof.
  unfold extends. simpl. repeat split; try done.
  intros path Hp. apply lookup_insert_ne. done.
Qed.

Lemma extends_write_table (rows : list CleanRow) (w : world) :
  extends w (write_table table_name rows w).
Proof.
  unfold extends. simpl. repeat split; try done.
  intros t Ht. apply lookup_insert_ne. done.
Qed.

Lemma keeps_bind {A B} (m : M A) (f : A -> M B) :
  keeps m -> (forall a, keeps (f a)) -> keeps (m ≫= f).
Proof.
  intros Hm Hf w. unfold mbind, M_bind. specialize (Hm w).
  destruct (m w) as [[a|e] w1]; simpl in *; [|done].
  eapply extends_trans; [exact Hm | apply Hf].
Qed.

Lemma keeps_try_except {A} (body : M A) (h : exn -> M A) :
  keeps body -> (forall e, keeps (h e)) -> keeps (try_except body h).
Proof.
  intros Hb Hh w. unfold try_except. specialize (Hb w).
  destruct (body w) as [[a|e] w1]; simpl in *; [done|].
  eapply extends_trans; [exact Hb | apply Hh].
Qed.

Lemma keeps_try_finally {A} (body : M A) (fin : M unit) :
  keeps body -> keeps fin -> keeps (try_finally body fin).
Proof.
  intros Hb Hf w. unfold try_finally. specialize (Hb w).
  destruct (body w) as [r w1]; simpl in *. specialize (Hf w1).
  destruct (fin w1) as [[[]|e] w2]; simpl in *;
    eapply extends_trans; done.
Qed.

Lemma keeps_still {A} (m : M A) : (forall w, snd (m w) = w) -> keeps m.
Proof. intros H w. rewrite H. apply extends_refl. Qed.

Lemma keeps_modify (f : world -> world) :
  (forall w, extends w (f w)) -> keeps (modify f).
Proof. intros H w. apply H. Qed.

Lemma keeps_log_progress (E : env) (inp : string) : keeps (log_progress E inp).
Proof.
  intros w. unfold log_progress. destruct (can_open E log_file); simpl.
  - eapply extends_trans; [apply extends_tick | apply extends_append_log].
  - apply extends_tick.
Qed.

Lemma keeps_load_to_csv (E : env) (df : list CleanRow) :
  keeps (load_to_csv E df csv_path).
Proof.
  intros w. unfold load_to_csv. destruct (can_open E csv_path); simpl.
  - apply extends_write_csv.
  - apply extends_refl.
Qed.

Lemma keeps_load_to_db (df : list CleanRow) (c : connection) :
  keeps (load_to_db df c table_name).
Proof.
  intros w. destruct c; simpl; [apply extends_write_table | apply extends_refl].
Qed.

Lemma keeps_get_conn : keeps get_conn.
Proof. apply keeps_still. intros w. unfold get_conn. destruct (conn w); done. Qed.

Lemma keeps_sqlite3_connect (E : env) (db : string) : keeps (sqlite3_connect E db).
Proof.
  apply keeps_still. intros w. unfold sqlite3_connect.
  destruct (can_open E db); done.
Qed.

Lemma keeps_lift {A} (r : result A) : keeps (lift r).
Proof. apply keeps_still. done. Qed.

Lemma keeps_run_query (q : string) (c : connection) : keeps (run_query q c).
Proof.
  unfold run_query. apply keeps_bind.
  { apply keeps_modify, extends_print_out. }
  intros _. apply keeps_bind.
  { apply keeps_still, read_sql_world. }
  intros rows. apply keeps_modify, extends_print_out.
Qed.

Create HintDb etl_keeps.
#[local] Hint Resolve keeps_log_progress keeps_load_to_csv keeps_load_to_db
  keeps_get_conn keeps_sqlite3_connect keeps_lift keeps_run_query
  extends_bind_conn extends_print_err : etl_keeps.

(** Every statement of the script only adds to the log and the streams and
    writes no file or table but its own; so does the whole script. *)
Lemma main_keeps (E : env) : keeps (main E).
Proof.
  unfold main. apply keeps_try_finally; [apply keeps_try_except|].
  - unfold pipeline.
    repeat (apply keeps_bind; [auto using keeps_modify with etl_keeps | intros ?]).
    auto with etl_keeps.
  - intros e. unfold handler. apply keeps_bind; [auto with etl_keeps|].
    intros _. apply keeps_modify. auto with etl_keeps.
  - unfold finally_block, conn_close. apply keeps_try_except.
    + apply keeps_bind; [auto with etl_keeps|]. intros _.
      apply keeps_modify. auto with etl_keeps.
    + intros _. apply keeps_still. done.
Qed.

(** X14: the log file and the two output streams are only ever appended
    to: after any run, what they held before is still there, at the
    front. *)
Theorem log_and_streams_only_grow (E : env) (w : world) :
  log_lines w `prefix_of` log_lines (snd (main E w)) /\
  stdout w `prefix_of` stdout (snd (main E w)) /\
  stderr w `prefix_of` stderr (snd (main E w)).
Proof. destruct (main_keeps E w) as (Hl & Ho & He & _). done. Qed.

(** X15: a run writes no CSV file but the one at [csv_path] and no table
    but [table_name]: every other file and table is after the run what it
    was before, however the run ends. *)
Theorem other_files_untouched (E : env) (w : world) (path t : string) :
  path <> csv_path ->
  t <> table_name ->
  csv_files (snd (main E w)) !! path = csv_files w !! path /\
  database (snd (main E w)) !! t = database w !! t.
Proof.
  intros Hp Ht. destruct (main_keeps E w) as (_ & _ & _ & Hc & Hd). auto.
Qed.

Lemma other_files_untouched_witness :
  csv_files (snd (main (Samples.env_of MoreSamples.plain_page true) Samples.fresh))
    !! "notes.csv"
  = csv_files Samples.fresh !! "notes.csv" /\
  database (snd (main (Samples.env_of MoreSamples.plain_page true) Samples.fresh))
    !! "Cities"
  = database Samples.fresh !! "Cities".
Proof.
  apply (other_files_untouched (Samples.env_of MoreSamples.plain_page true)
           Samples.fresh "notes.csv" "Cities").
  - intros H. vm_compute in H. discriminate H.
  - intros H. vm_compute in H. discriminate H.
Defined.

(** *** A stage fails *)

(** The handler and the [finally] block after a stage has raised [e], in a
    state where the log file opens. *)
Lemma handled (E : env) (e : exn) l c d o er cn k :
  can_open E log_file = true ->
  try_finally (handler E e) finally_block (mkWorld l c d o er cn k)
  = (Ok tt,
     mkWorld (l ++ log_entries E k ["ERROR: " +:+ exn_msg e]) c d o
             (er ++ ["ERROR: " +:+ exn_msg e])
             (match cn with Some _ => Some conn_closed | None => None end)
             (S k)).
Proof.
  intros Hl. unfold try_finally, handler. step_log.
  unfold modify, print_err. cbn [log_lines csv_files database stdout stderr conn clock].
  rewrite finally_block_spec. cbn [conn]. f_equal.
  unfold log_entries. cbn [imap]. rewrite Nat.add_0_r.
  destruct cn; reflexivity.
Qed.

Lemma main_after_raise (E : env) (w w1 : world) (e : exn) :
  pipeline E w = (Raise e, w1) ->
  main E w = try_finally (handler E e) finally_block w1.
Proof. intros H. unfold main, try_finally, try_except. rewrite H. done. Qed.

(** X16: when the CSV file cannot be opened, the run stops there: the
    handler logs the failure after the three entries written so far and
    reports it on standard error, the run ends normally, and neither a
    CSV file nor a table is written; the connection is never made. *)
Theorem csv_failure_stops_loading (E : env) (log : list string)
  (csvs : gmap string (list string * list CleanRow))
  (db : gmap string (list CleanRow)) (df : list RawRow) :
  can_open E log_file = true ->
  can_open E csv_path = false ->
  extract E url table_attribs = Ok df ->
  exists w' : world,
    main E (boot log csvs db) = (Ok tt, w') /\
    log_lines w'
    = log ++ log_entries E 0
               (take 3 stage_messages ++ ["ERROR: " +:+ exn_msg (open_error csv_path)]) /\
    stderr w' = ["ERROR: " +:+ exn_msg (open_error csv_path)] /\
    stdout w' = [] /\ csv_files w' = csvs /\ database w' = db /\ conn w' = None.
Proof.
  intros Hl Hc He. eexists. split.
  - erewrite main_after_raise; [apply handled; done|].
    unfold pipeline, boot. rewrite (pipeline_to_loading E df) by done.
    apply bind_raise. unfold load_to_csv. rewrite Hc. reflexivity.
  - cbn. rewrite <- !app_assoc. done.
Qed.

Lemma csv_failure_stops_loading_witness :
  exists w' : world,
    main (MoreSamples.env_blocking MoreSamples.plain_page csv_path) (boot [] ∅ ∅)
    = (Ok tt, w') /\
    log_lines w'
    = [] ++ log_entries (MoreSamples.env_blocking MoreSamples.plain_page csv_path) 0
              (take 3 stage_messages ++ ["ERROR: " +:+ exn_msg (open_error csv_path)]) /\
    stderr w' = ["ERROR: " +:+ exn_msg (open_error csv_path)] /\
    stdout w' = [] /\ csv_files w' = ∅ /\ database w' = ∅ /\ conn w' = None.
Proof.
  apply (csv_failure_stops_loading
           (MoreSamples.env_blocking MoreSamples.plain_page csv_path) [] ∅ ∅
           [mkRaw "France" "2,923,489"; mkRaw "Japan" "4,409,738"]);
    reflexivity.
Defined.

(** X17: when the database cannot be opened, the CSV file has already
    been written and stays; no table is written, [conn] stays unbound, the
    handler logs the failure after the four entries written so far and
    reports it on standard error, and the run ends normally. *)
Theorem db_failure_keeps_csv (E : env) (log : list string)
  (csvs : gmap string (list string * list CleanRow))
  (db : gmap string (list CleanRow)) (df : list RawRow) :
  can_open E log_file = true ->
  can_open E csv_path = true ->
  can_open E db_name = false ->
  extract E url table_attribs = Ok df ->
  exists w' : world,
    main E (boot log csvs db) = (Ok tt, w') /\
    log_lines w'
    = log ++ log_entries E 0
               (take 4 stage_messages ++ ["ERROR: unable to open database file"]) /\
    stderr w' = ["ERROR: unable to open database file"] /\
    stdout w' = [] /\
    csv_files w'
    = <[csv_path := (["Country"; "GDP_USD_billions"], omap clean_row df)]> csvs /\
    database w' = db /\ conn w' = None.
Proof.
  intros Hl Hc Hd He. eexists. split.
  - erewrite main_after_raise; [apply handled; done|].
    unfold pipeline, boot. rewrite (pipeline_to_loading E df) by done.
    step_with ltac:(apply csv_step; assumption). step_log.
    apply bind_raise. unfold sqlite3_connect. rewrite Hd. reflexivity.
  - cbn. rewrite <- !app_assoc. done.
Qed.

Lemma db_failure_keeps_csv_witness :
  exists w' : world,
    main (MoreSamples.env_blocking MoreSamples.plain_page db_name) (boot [] ∅ ∅)
    = (Ok tt, w') /\
    log_lines w'
    = [] ++ log_entries (MoreSamples.env_blocking MoreSamples.plain_page db_name) 0
              (take 4 stage_messages ++ ["ERROR: unable to open database file"]) /\
    stderr w' = ["ERROR: unable to open database file"] /\
    stdout w' = [] /\
    csv_files w'
    = <[csv_path := (["Country"; "GDP_USD_billions"],
                     omap clean_row [mkRaw "France" "2,923,489"; mkRaw "Japan" "4,409,738"])]> ∅ /\
    database w' = ∅ /\ conn w' = None.
Proof.
  apply (db_failure_keeps_csv
           (MoreSamples.env_blocking MoreSamples.plain_page db_name) [] ∅ ∅
           [mkRaw "France" "2,923,489"; mkRaw "Japan" "4,409,738"]);
    reflexivity.
Defined.



